(** * hl_trading_bot: a shallow embedding of the trading pipeline

    The development follows the layout of the repository: one module per
    class ([Window], [LogReturn], [LinReg], [Order], [BasicTakerStrat]) and
    one for the functions of [main.py], preceded by a small model of the
    Python run time the code relies on (exceptions, dynamically typed
    values, mutable state) and of the NumPy scalars it computes with.

    Conventions.
    - A Python [float] is idealised as a real number.  The IEEE special
      values the code itself can produce ([-inf] and [nan] out of [np.log],
      and what arithmetic makes of them) are kept explicit in [npfloat].
      Theorems on the real model are limited to what does not depend on
      rounding; the feature engine is also given over an arbitrary
      arithmetic, of which binary64 is one.
    - A call that may raise returns a [result]; a method that mutates its
      object is a computation in the state-and-exception monad [Eff].
    - Wall-clock fields are integers; the timer's sleep is computed in IEEE
      binary64, as Python evaluates it. *)

From Stdlib Require Import ZArith Reals Lra Lia List String Ascii Bool.
From Stdlib Require Import Floats.
From stdpp Require Import gmap strings.
Import ListNotations.

Local Open Scope string_scope.
Local Open Scope list_scope.

(* Decimal float literals stand for the nearest binary64 value, as in Python. *)
#[local] Set Warnings "-inexact-float,-register-all".

(* ===================================================================== *)
(** * The Python run time *)
(* ===================================================================== *)

Module Py.

(** Exception classes the program meets.  [KeyboardInterrupt] and
    [CancelledError] derive from [BaseException] only; all the others derive
    from [Exception], which is what [except Exception] catches. *)
Inductive exn : Type :=
| IndexError
| KeyError (key : string)
| TypeError
| ValueError (msg : string)
| ZeroDivisionError
| NameError (name : string)
| ConnectionClosed
| OSError
| ExchangeError (msg : string)
| KeyboardInterrupt
| CancelledError.


Definition is_Exception (e : exn) : bool :=
  match e with
  | KeyboardInterrupt | CancelledError => false
  | _ => true
  end.

Inductive result (A : Type) : Type :=
| Ok (a : A)
| Raise (e : exn).
Arguments Ok {A} a.
Arguments Raise {A} e.

Definition rbind {A B} (r : result A) (k : A -> result B) : result B :=
  match r with
  | Ok a => k a
  | Raise e => Raise e
  end.

(** Values of the two dynamic types [interval_mins] can produce. *)
Inductive pyval : Type :=
| PyInt (n : Z)
| PyStr (s : string).

(** [s[-1]]: the last character, as a string of length one. *)
Fixpoint str_last (s : string) : result string :=
  match s with
  | EmptyString => Raise IndexError
  | String c EmptyString => Ok (String c EmptyString)
  | String _ rest => str_last rest
  end.

(** [s[:-1]]: everything but the last character (empty stays empty). *)
Fixpoint str_init (s : string) : string :=
  match s with
  | EmptyString => EmptyString
  | String _ EmptyString => EmptyString
  | String c rest => String c (str_init rest)
  end.

Fixpoint str_repeat (s : string) (n : nat) : string :=
  match n with
  | O => EmptyString
  | S k => String.append s (str_repeat s k)
  end.

(** [v * n] for an int [n]: product of ints, repetition of a string
    (the empty string when [n <= 0]). *)
Definition py_mul (v : pyval) (n : Z) : pyval :=
  match v with
  | PyInt k => PyInt (k * n)
  | PyStr s => PyStr (str_repeat s (Z.to_nat n))
  end.

(** [max(1, v)]: the builtin compares with [>], which is not defined
    between a [str] and an [int]. *)
Definition py_max_1 (v : pyval) : result Z :=
  match v with
  | PyInt k => Ok (Z.max 1 k)
  | PyStr _ => Raise TypeError
  end.

(** State-and-exception monad: the state survives a raised exception, as
    the mutations of a Python object do. *)
Definition Eff (S A : Type) : Type := S -> result A * S.

Definition ret {S A} (a : A) : Eff S A := fun s => (Ok a, s).

Definition raise {S A} (e : exn) : Eff S A := fun s => (Raise e, s).

Definition bind {S A B} (c : Eff S A) (k : A -> Eff S B) : Eff S B :=
  fun s =>
    match c s with
    | (Ok a, s') => k a s'
    | (Raise e, s') => (Raise e, s')
    end.

Definition get {S} : Eff S S := fun s => (Ok s, s).

Definition lift_result {S A} (r : result A) : Eff S A := fun s => (r, s).

(** Run a computation on a component of the state. *)
Definition zoom {S T A} (proj : S -> T) (upd : T -> S -> S) (c : Eff T A) : Eff S A :=
  fun s => let '(r, t) := c (proj s) in (r, upd t s).

(** [try: body  except Exception as e: handler(e)]. *)
Definition try_except_Exception {S A} (body : Eff S A) (handler : exn -> Eff S A) : Eff S A :=
  fun s =>
    match body s with
    | (Ok a, s') => (Ok a, s')
    | (Raise e, s') => if is_Exception e then handler e s' else (Raise e, s')
    end.

End Py.

Import Py.

Declare Scope eff_scope.
Delimit Scope eff_scope with eff.
Notation "'let*' x ':=' c 'in' k" := (bind c (fun x => k))
  (at level 10, x pattern, c at level 100, k at level 200) : eff_scope.
Notation "c ';;' k" := (bind c (fun _ => k))
  (at level 100, k at level 200, right associativity) : eff_scope.

Declare Scope res_scope.
Delimit Scope res_scope with res.
Notation "'let?' x ':=' c 'in' k" := (rbind c (fun x => k))
  (at level 10, x pattern, c at level 100, k at level 200) : res_scope.

(* ===================================================================== *)
(** * NumPy scalars *)
(* ===================================================================== *)

Module np.

(** A [numpy.float64]: a finite value, or one of the special values. *)
Inductive npfloat : Type :=
| Finite (x : R)
| PosInf
| NegInf
| NaN.

Definition Rsign (x : R) : comparison :=
  if Rlt_dec 0 x then Gt else if Rlt_dec x 0 then Lt else Eq.

(** [np.log] does not raise: it returns [-inf] at zero and [nan] below
    (with a warning on stderr only). *)
Definition log (x : R) : npfloat :=
  match Rsign x with
  | Gt => Finite (ln x)
  | Eq => NegInf
  | Lt => NaN
  end.

Definition mul (a b : npfloat) : npfloat :=
  match a, b with
  | NaN, _ | _, NaN => NaN
  | Finite x, Finite y => Finite (x * y)
  | Finite x, PosInf | PosInf, Finite x =>
      match Rsign x with Gt => PosInf | Lt => NegInf | Eq => NaN end
  | Finite x, NegInf | NegInf, Finite x =>
      match Rsign x with Gt => NegInf | Lt => PosInf | Eq => NaN end
  | PosInf, PosInf | NegInf, NegInf => PosInf
  | PosInf, NegInf | NegInf, PosInf => NegInf
  end.

Definition add (a b : npfloat) : npfloat :=
  match a, b with
  | NaN, _ | _, NaN => NaN
  | Finite x, Finite y => Finite (x + y)
  | PosInf, NegInf | NegInf, PosInf => NaN
  | PosInf, _ | _, PosInf => PosInf
  | NegInf, _ | _, NegInf => NegInf
  end.

(** [np.sign]: -1, 0 or 1, and [nan] for [nan]. *)
Definition sign (a : npfloat) : npfloat :=
  match a with
  | Finite x => match Rsign x with Gt => Finite 1 | Lt => Finite (-1) | Eq => Finite 0 end
  | PosInf => Finite 1
  | NegInf => Finite (-1)
  | NaN => NaN
  end.

(** [a == b] on scalars; [nan] equals nothing. *)
Definition eqb (a b : npfloat) : bool :=
  match a, b with
  | Finite x, Finite y => if Req_dec_T x y then true else false
  | PosInf, PosInf | NegInf, NegInf => true
  | _, _ => false
  end.

End np.

(* ===================================================================== *)
(** * stream.py *)
(* ===================================================================== *)

(** The abstract base class [Tick]: one method, [on_tick]. *)
Class Tick (Self X Y : Type) : Type := on_tick : X -> Eff Self Y.

Module Window.

(** [collections.deque(maxlen=window_size)], oldest element first. *)
Record Window (A : Type) : Type := mk { data : list A; maxlen : nat }.
Arguments mk {A} data maxlen.
Arguments data {A} w.
Arguments maxlen {A} w.

Section Methods.
Context {A : Type}.

(** [Window(window_size)] *)
Definition init (window_size : nat) : Window A := mk [] window_size.

(** [deque.append]: a bounded deque that is full drops from the left. *)
Definition deque_append (n : nat) (d : list A) (elem : A) : list A :=
  let d' := d ++ [elem] in
  if (n <? length d')%nat then tl d' else d'.

Definition is_full (w : Window A) : bool := (length (data w) =? maxlen w)%nat.

Definition popleft : Eff (Window A) A :=
  fun w =>
    match data w with
    | [] => (Raise IndexError, w)
    | x :: rest => (Ok x, mk rest (maxlen w))
    end.

Definition append (elem : A) : Eff (Window A) unit :=
  fun w => (Ok tt, mk (deque_append (maxlen w) (data w) elem) (maxlen w)).

(** [self.data[i]] for [i >= 0]. *)
Definition getitem (i : nat) : Eff (Window A) A :=
  fun w =>
    match nth_error (data w) i with
    | Some x => (Ok x, w)
    | None => (Raise IndexError, w)
    end.

(** [Window.on_tick] (stream.py, lines 44-54). *)
Definition on_tick (elem : A) : Eff (Window A) (option A) :=
  (let* w := get in
   let* old_elem := (if is_full w
                     then (let* x := popleft in ret (Some x))
                     else ret None) in
   append elem ;;
   ret old_elem)%eff.

End Methods.

#[export] Instance Window_Tick {A : Type} : Tick (Window A) A (option A) := on_tick.

(** Feed a sequence, collecting what each [on_tick] returns. *)
Fixpoint feed {A : Type} (xs : list A) : Eff (Window A) (list (option A)) :=
  match xs with
  | [] => ret []
  | x :: rest =>
      (let* o := on_tick x in
       let* os := feed rest in
       ret (o :: os))%eff
  end.

End Window.

Module LogReturn.

Record LogReturn : Type := mk { price : Window.Window R }.

(** [LogReturn()] *)
Definition init : LogReturn := mk (Window.init 2).

Definition with_price {T} (c : Eff (Window.Window R) T) : Eff LogReturn T :=
  zoom price (fun w _ => mk w) c.

(** [a / b] on Python floats. *)
Definition truediv (a b : R) : result R :=
  if Req_dec_T b 0 then Raise ZeroDivisionError else Ok (a / b)%R.

(** [LogReturn.on_tick] (stream.py, lines 64-70). *)
Definition on_tick (p : R) : Eff LogReturn (option np.npfloat) :=
  (with_price (Window.on_tick p) ;;
   let* self := get in
   if Window.is_full (price self)
   then (let* newest := with_price (Window.getitem 1) in
         let* oldest := with_price (Window.getitem 0) in
         let* ratio := lift_result (truediv newest oldest) in
         ret (Some (np.log ratio)))
   else ret None)%eff.

#[export] Instance LogReturn_Tick : Tick LogReturn R (option np.npfloat) := on_tick.

Fixpoint feed (prices : list R) : Eff LogReturn (list (option np.npfloat)) :=
  match prices with
  | [] => ret []
  | p :: rest =>
      (let* o := on_tick p in
       let* os := feed rest in
       ret (o :: os))%eff
  end.

End LogReturn.

(** ** The feature engine over an arbitrary arithmetic

    [LogReturn.on_tick] once more, with the two arithmetic operations of
    line 68 as parameters: [truediv] is [/] on the prices (it may raise)
    and [log] is [np.log].  [LogReturn] above is the instance at the real
    numbers; binary64 division and NumPy's rounded logarithm are
    another. *)
Module LogReturnOver.

Section Arithmetic.
Variables F G : Type.
Variable truediv : F -> F -> result F.
Variable log : F -> G.

Record LogReturn : Type := mk { price : Window.Window F }.

Definition init : LogReturn := mk (Window.init 2).

Definition with_price {T} (c : Eff (Window.Window F) T) : Eff LogReturn T :=
  zoom price (fun w _ => mk w) c.

Definition on_tick (p : F) : Eff LogReturn (option G) :=
  (with_price (Window.on_tick p) ;;
   let* self := get in
   if Window.is_full (price self)
   then (let* newest := with_price (Window.getitem 1) in
         let* oldest := with_price (Window.getitem 0) in
         let* ratio := lift_result (truediv newest oldest) in
         ret (Some (log ratio)))
   else ret None)%eff.

Fixpoint feed (prices : list F) : Eff LogReturn (list (option G)) :=
  match prices with
  | [] => ret []
  | p :: rest =>
      (let* o := on_tick p in
       let* os := feed rest in
       ret (o :: os))%eff
  end.

(** What the ticks of a price sequence return, read off the sequence
    alone: absent for the first price, then the logarithm of each price
    over the one before it, up to the first division that raises. *)
Fixpoint neighbour_logs_from (oldest : F) (prices : list F) : result (list (option G)) :=
  match prices with
  | [] => Ok []
  | newest :: rest =>
      (let? ratio := truediv newest oldest in
       let? later := neighbour_logs_from newest rest in
       Ok (Some (log ratio) :: later))%res
  end.

Definition neighbour_logs (prices : list F) : result (list (option G)) :=
  match prices with
  | [] => Ok []
  | first :: rest =>
      (let? later := neighbour_logs_from first rest in
       Ok (None :: later))%res
  end.

End Arithmetic.

Arguments mk {F} price.
Arguments price {F} l.
Arguments init {F}.
Arguments on_tick {F G} truediv log p.
Arguments feed {F G} truediv log prices.
Arguments neighbour_logs_from {F G} truediv log oldest prices.
Arguments neighbour_logs {F G} truediv log prices.

End LogReturnOver.

(* ===================================================================== *)
(** * models.py *)
(* ===================================================================== *)

Module LinReg.

Record LinReg : Type := mk { weights : R; bias : R }.

(** [np.dot(x, w)] on scalars is their product.  A [None] operand is
    wrapped in an object array and multiplied with Python's own [*]:
    TypeError. *)
Definition dot (x : option np.npfloat) (w : R) : result np.npfloat :=
  match x with
  | None => Raise TypeError
  | Some v => Ok (np.mul v (np.Finite w))
  end.

(** [LinReg.predict] (models.py, lines 15-35). *)
Definition predict (self : LinReg) (x : option np.npfloat) : result np.npfloat :=
  match dot x (weights self) with
  | Ok xw => Ok (np.add xw (np.Finite (bias self)))
  | Raise e => Raise e
  end.

End LinReg.

(* ===================================================================== *)
(** * The exchange client *)
(* ===================================================================== *)

Module Exchange.

(** The two calls the strategy makes on the exchange client. *)
Inductive call : Type :=
| market_close (coin : string)
| market_open (coin : string) (is_buy : bool) (sz : R).

(** The client is outside the repository: [respond] is whatever it answers
    (a report, or an exception) to a call, given the calls made so far;
    [history] records the calls in order. *)
Record Exchange : Type := mk {
  respond : list call -> call -> result string;
  history : list call
}.

Definition invoke (c : call) : Eff Exchange string :=
  fun ex => (respond ex (history ex) c, mk (respond ex) (history ex ++ [c])).

End Exchange.

(* ===================================================================== *)
(** * strategy.py *)
(* ===================================================================== *)

Module Order.

Record Order : Type := mk { coin : string; sz : R; is_buy : bool }.

End Order.

Module BasicTakerStrat.

Record BasicTakerStrat : Type := mk {
  exchange : Exchange.Exchange;
  coin : string;
  model : LinReg.LinReg;
  lag : LogReturn.LogReturn;
  sz : R;
  leverage : R
}.

(** What the methods print, one constructor per [print] statement. *)
Inductive line : Type :=
| PositionClosed (r : string)
| ErrorClosePosition (e : exn)
| OrderOpened (r : string)
| ErrorOpeningPosition (e : exn)
| OnTick (price : R)
| CalculatedLogReturn (lag : option np.npfloat)
| ForecastFutureLogReturn (y_hat : np.npfloat)
| OrderLine (order : Order.Order)
| SyncNoPrice.

(** The strategy object together with the standard output. *)
Record process : Type := mkProcess { self : BasicTakerStrat; stdout : list line }.

Definition print (l : line) : Eff process unit :=
  fun p => (Ok tt, mkProcess (self p) (stdout p ++ [l])).

Definition with_exchange {T} (c : Eff Exchange.Exchange T) : Eff process T :=
  zoom (fun p => exchange (self p))
       (fun ex p =>
          let s := self p in
          mkProcess (mk ex (coin s) (model s) (lag s) (sz s) (leverage s)) (stdout p))
       c.

Definition with_lag {T} (c : Eff LogReturn.LogReturn T) : Eff process T :=
  zoom (fun p => lag (self p))
       (fun lr p =>
          let s := self p in
          mkProcess (mk (exchange s) (coin s) (model s) lr (sz s) (leverage s)) (stdout p))
       c.

(** [BasicTakerStrat.strategy] (strategy.py, lines 102-104). *)
Definition strategy (self : BasicTakerStrat) (y_hat : np.npfloat) : Order.Order :=
  let is_buy := np.eqb (np.sign y_hat) (np.Finite 1) in
  Order.mk (coin self) (sz self) is_buy.

(** [BasicTakerStrat.execute] (strategy.py, lines 106-128). *)
Definition execute (order : Order.Order) : Eff process unit :=
  (try_except_Exception
     (let* p := get in
      let* r := with_exchange (Exchange.invoke (Exchange.market_close (coin (self p)))) in
      print (PositionClosed r))
     (fun e => print (ErrorClosePosition e)) ;;
   try_except_Exception
     (let* p := get in
      let* r := with_exchange
                  (Exchange.invoke
                     (Exchange.market_open (coin (self p)) (Order.is_buy order) (Order.sz order))) in
      print (OrderOpened r))
     (fun e => print (ErrorOpeningPosition e)))%eff.

(** [BasicTakerStrat.on_tick] (strategy.py, lines 130-171); it has no
    [return] statement, so it returns [None]. *)
Definition on_tick (price : R) : Eff process unit :=
  (print (OnTick price) ;;
   let* lag := with_lag (LogReturn.on_tick price) in
   print (CalculatedLogReturn lag) ;;
   let* p := get in
   let* y_hat := lift_result (LinReg.predict (model (self p)) lag) in
   print (ForecastFutureLogReturn y_hat) ;;
   let order := strategy (self p) y_hat in
   print (OrderLine order) ;;
   execute order)%eff.

#[export] Instance BasicTakerStrat_Tick : Tick process R unit := on_tick.

End BasicTakerStrat.

(** The decision rule the specification recommends, in its own words:
    buy on a positive forecast, sell on a negative one, and no order intent
    at all on a forecast of exactly zero. *)
Definition DecisionPolicy_spec (forecast : R) : option bool :=
  match np.Rsign forecast with
  | Gt => Some true
  | Lt => Some false
  | Eq => None
  end.

(* ===================================================================== *)
(** * hl.py *)
(* ===================================================================== *)

Module hl.

(** [TIME_INTERVALS] (hl.py, line 15). *)
Definition TIME_INTERVALS : list string :=
  ["1m"; "3m"; "5m"; "15m"; "30m"; "1h"; "2h"; "4h"; "8h"; "12h"; "1d"; "3d"; "1w"; "1M"].

(** [_interval_map] (hl.py, lines 17-31): each entry builds a [timedelta],
    given here in minutes. *)
Definition _interval_map : gmap string Z :=
  list_to_map
    [("1m", 1); ("3m", 3); ("5m", 5); ("15m", 15); ("30m", 30);
     ("1h", 60); ("2h", 120); ("4h", 240); ("8h", 480); ("12h", 720);
     ("1d", 1440); ("3d", 4320); ("1w", 10080)]%Z.

(** [dl_last_candles] (hl.py, lines 106-117), up to the call of [dl_ohlc]:
    the time range it asks for.  Instants are in microseconds, the
    resolution of [datetime]; [datetime - timedelta] is exact. *)
Definition dl_last_candles (interval : string) (no_lags : Z) (now : Z) : result (Z * Z) :=
  match _interval_map !! interval with
  | None => Raise (KeyError interval)
  | Some delta => Ok ((now - delta * 60000000 * no_lags)%Z, now)
  end.

End hl.

(* ===================================================================== *)
(** * main.py *)
(* ===================================================================== *)

Module main.

(** [settings.params] is not among the sources: it is a parameter here,
    with the entries [main.py] reads.  [params['model']] is a dictionary of
    numbers. *)
Record Params : Type := mkParams {
  model : gmap string R;
  sym : string;
  interval : string
}.

(** [d[k]] on a dictionary. *)
Definition getitem (d : gmap string R) (k : string) : result R :=
  match d !! k with
  | Some v => Ok v
  | None => Raise (KeyError k)
  end.

(** [create_model] (main.py, lines 17-22). *)
Definition create_model (params : Params) : result LinReg.LinReg :=
  (let model_params := model params in
   let? weights := getitem model_params "weight" in
   let? bias := getitem model_params "weight" in
   Ok (LinReg.mk weights bias))%res.

(** [create_strategy] (main.py, lines 42-65); [prices] is what
    [dl_prices_ts] downloaded, each already through [float]. *)
Definition create_strategy (params : Params) (exchange : Exchange.Exchange) (prices : list R)
  : result BasicTakerStrat.BasicTakerStrat :=
  (let coin := sym params in
   let? model := create_model params in
   let trade_sz := (2 / 10000)%R in
   let '(warm, lag) := LogReturn.feed prices LogReturn.init in
   let? _ := warm in
   Ok (BasicTakerStrat.mk exchange coin model lag trade_sz 1%R))%res.

(** [interval_mins] (main.py, lines 67-88).  The slice [interval[:-1]] is a
    [str], and it is used as it is. *)
Definition interval_mins (interval : string) : result pyval :=
  (let? dur := str_last interval in
   if String.eqb dur "h" then Ok (py_mul (PyStr (str_init interval)) 60)
   else if String.eqb dur "m" then Ok (PyStr (str_init interval))
   else if String.eqb dur "d" then Ok (py_mul (py_mul (PyStr (str_init interval)) 24) 60)
   else Raise (ValueError (String.append "Invalid Interval: " interval)))%res.

(** The fields of [datetime.now(timezone.utc)] the timer reads. *)
Record datetime : Type := mkDatetime {
  hour : Z;
  minute : Z;
  second : Z;
  microsecond : Z
}.

(** [a % b] on ints with [b > 0] is [Z.modulo]; [b = 0] raises. *)
Definition py_mod (a b : Z) : result Z :=
  if (b =? 0)%Z then Raise ZeroDivisionError else Ok (a mod b)%Z.

(** [trade_periodically], lines 102-103: the period in minutes. *)
Definition period_mins (interval : string) : result Z :=
  (let? no_mins := interval_mins interval in
   py_max_1 no_mins)%res.

(** An int as a float, rounded to nearest even as Python converts it. *)
Definition float_of_int (z : Z) : float :=
  SF2Prim (binary_normalize prec emax z 0 false).

(** [trade_periodically], lines 108-120, for a period of [period_mins]
    minutes: the argument of [asyncio.sleep], in binary64 arithmetic.  The
    int [(period_mins - mins_past) * 60 - now.second] is converted to a
    float when the float [now.microsecond / 1_000_000.0] is subtracted
    from it. *)
Definition sleep_for_period (period_mins : Z) (now : datetime) : result float :=
  (let? mins_past := py_mod (minute now) period_mins in
   let seconds_until_next :=
     (float_of_int ((period_mins - mins_past) * 60 - second now)
      - float_of_int (microsecond now) / 1000000)%float in
   Ok (seconds_until_next + 0.0001)%float)%res.

(** [trade_periodically], lines 102-120: from the interval string to the
    argument of the first [asyncio.sleep]. *)
Definition trade_periodically_sleep (interval : string) (now : datetime) : result float :=
  (let? no_mins := interval_mins interval in
   let? period_mins := py_max_1 no_mins in
   sleep_for_period period_mins now)%res.

(** [trade_periodically], lines 124-134: what the timer does when it wakes.
    [last_price] is a module global that only the message loop assigns:
    [None] stands for the name not being bound yet. *)
Definition timer_fire (last_price : option R) : Eff BasicTakerStrat.process unit :=
  match last_price with
  | None => raise (NameError "last_price")
  | Some price =>
      if Req_dec_T price 0
      then BasicTakerStrat.print BasicTakerStrat.SyncNoPrice
      else BasicTakerStrat.on_tick price
  end.

(** ** The reconnect loop

    [main] (lines 195-204) awaits [connect_and_listen] (lines 136-170) over
    and over.  The loop is a transition system over the points where the
    event loop can switch tasks.  A timer task is live from its
    [create_task] until it is cancelled or ends; a cancelled task is resumed
    only to receive [CancelledError] at its [await asyncio.sleep], so it
    runs no callback any more. *)

Inductive phase : Type :=
| Idle
| Listening (timer_task : nat)
| Backoff
| Crashed (e : exn).

Record supervisor : Type := mkSupervisor {
  at_phase : phase;
  live : list nat;
  spawned : nat;
  backoff : Z
}.

Inductive event : Type :=
| Connect
| Message
| Fire (t : nat)
| TimerEnds (t : nat)
| Exit (outcome : result unit)
| BackoffElapsed.

(** [except (websockets.ConnectionClosed, OSError)] *)
Definition is_disconnect (e : exn) : bool :=
  match e with
  | ConnectionClosed | OSError => true
  | _ => false
  end.

(** [timer_task.cancel()] *)
Definition cancel (t : nat) (tasks : list nat) : list nat :=
  List.filter (fun u => negb (u =? t)%nat) tasks.

Definition is_live (t : nat) (tasks : list nat) : bool :=
  existsb (fun u => (u =? t)%nat) tasks.

Definition start : supervisor := mkSupervisor Idle [] 0 1.

Definition step (s : supervisor) (ev : event) : option supervisor :=
  match ev, at_phase s with
  | Connect, Idle =>
      (* line 144: timer_task = asyncio.create_task(...) *)
      let t := spawned s in
      Some (mkSupervisor (Listening t) (t :: live s) (S t) (backoff s))
  | Message, Listening _ => Some s
  | Fire t, _ => if is_live t (live s) then Some s else None
  | TimerEnds t, _ =>
      if is_live t (live s)
      then Some (mkSupervisor (at_phase s) (cancel t (live s)) (spawned s) (backoff s))
      else None
  | Exit outcome, Listening t =>
      (* line 170, in the finally clause *)
      let tasks := cancel t (live s) in
      match outcome with
      | Ok _ => Some (mkSupervisor Idle tasks (spawned s) 1)
      | Raise e =>
          if is_disconnect e
          then Some (mkSupervisor Backoff tasks (spawned s) (backoff s))
          else Some (mkSupervisor (Crashed e) tasks (spawned s) (backoff s))
      end
  | BackoffElapsed, Backoff =>
      Some (mkSupervisor Idle (live s) (spawned s) (Z.min (backoff s * 2) 30))
  | _, _ => None
  end.

Fixpoint run (evs : list event) (s : supervisor) : option supervisor :=
  match evs with
  | [] => Some s
  | ev :: rest =>
      match step s ev with
      | Some s' => run rest s'
      | None => None
      end
  end.

(** ** Incoming messages

    What [json.loads] returns. *)
Inductive json : Type :=
| JNull
| JBool (b : bool)
| JNum (x : R)
| JStr (s : string)
| JList (l : list json)
| JDict (d : gmap string json).

(** [v[key]] for a string key: only a dictionary can be indexed by one. *)
Definition json_getitem (v : json) (key : string) : result json :=
  match v with
  | JDict d =>
      match d !! key with
      | Some x => Ok x
      | None => Raise (KeyError key)
      end
  | _ => Raise TypeError
  end.

(** [l[-1]] *)
Definition list_last (l : list json) : result json :=
  match l with
  | [] => Raise IndexError
  | x :: rest => Ok (List.last rest x)
  end.

Section Messages.

(** The builtin [float] on a string: the number it spells, if any. *)
Variable parse_float : string -> option R.

(** [float(v)] *)
Definition py_float (v : json) : result R :=
  match v with
  | JStr s =>
      match parse_float s with
      | Some x => Ok x
      | None => Raise (ValueError "could not convert string to float")
      end
  | JNum x => Ok x
  | JBool b => Ok (if b then 1%R else 0%R)
  | JNull | JList _ | JDict _ => Raise TypeError
  end.

(** The body of the [async for] of [connect_and_listen] (lines 157-164),
    for a message that [json.loads] read as the dictionary [data]; the
    result is the new value of the global [last_price].  The two [print]
    calls are left out. *)
Definition on_message (data : gmap string json) (last_price : option R)
  : result (option R) :=
  match data !! "data" with
  | Some (JList trade_data) =>
      (let? last_trade := list_last trade_data in
       let? px := json_getitem last_trade "px" in
       let? price := py_float px in
       Ok (Some price))%res
  | _ => Ok last_price
  end.

End Messages.

End main.

(* ===================================================================== *)
(** * Reference definitions, in the words of the specification *)
(* ===================================================================== *)

(** The last [N] elements of an arrival sequence, oldest first. *)
Definition held {A : Type} (N : nat) (xs : list A) : list A :=
  skipn (length xs - N) xs.

(** What the [k]-th push (from 0) of a sequence evicts from a window of
    capacity [N]: nothing for the first [N] pushes, then the element that
    arrived [N] pushes earlier. *)
Definition evicted {A : Type} (N : nat) (xs : list A) : list (option A) :=
  map (fun k => if (k <? N)%nat then None else nth_error xs (k - N))
      (seq 0 (length xs)).

(** Log-returns of a price sequence: absent for the first price, then
    [ln (newest / oldest)] for every pair of neighbours. *)
Fixpoint log_returns_from (oldest : R) (prices : list R) : list (option np.npfloat) :=
  match prices with
  | [] => []
  | newest :: rest => Some (np.Finite (ln (newest / oldest))) :: log_returns_from newest rest
  end.

Definition log_returns (prices : list R) : list (option np.npfloat) :=
  match prices with
  | [] => []
  | first :: rest => None :: log_returns_from first rest
  end.

(** The elements a sequence of pushes evicted, in order. *)
Definition evictions {A : Type} (outs : list (option A)) : list A :=
  flat_map (fun o => match o with Some x => [x] | None => [] end) outs.

(** [k] rounds of connecting, losing the connection and waiting. *)
Fixpoint disconnects (k : nat) : list main.event :=
  match k with
  | O => []
  | S n => main.Connect :: main.Exit (Raise ConnectionClosed) :: main.BackoffElapsed
           :: disconnects n
  end.

(** The invariant of the loop: outside a connection epoch no timer task is
    live; inside the epoch of timer [t] the only task that can be live is
    [t] itself. *)
Definition single_timer (s : main.supervisor) : Prop :=
  match main.at_phase s with
  | main.Listening t => main.live s = [t] \/ main.live s = []
  | _ => main.live s = []
  end.

(** No epoch is open and no timer is live. *)
Definition quiet (s : main.supervisor) : Prop :=
  main.live s = [] /\ forall t, main.at_phase s <> main.Listening t.

(** Sample objects for the worked examples: an exchange that fills every
    order, one that rejects every call, and a strategy on BTC with the
    trade size of [create_strategy]. *)
Definition filling_exchange : Exchange.Exchange :=
  Exchange.mk (fun _ _ => Ok "filled") [].

Definition rejecting_exchange : Exchange.Exchange :=
  Exchange.mk (fun _ _ => Raise (ExchangeError "rejected")) [].

Definition sample_strat (exchange : Exchange.Exchange) (weight bias : R)
    (lag : LogReturn.LogReturn) : BasicTakerStrat.BasicTakerStrat :=
  BasicTakerStrat.mk exchange "BTC" (LinReg.mk weight bias) lag (2 / 10000)%R 1%R.

(* ===================================================================== *)
(** * interval_mins *)
(* ===================================================================== *)

(** Whatever the interval, [interval_mins] never returns an int. *)
Lemma interval_mins_never_int (interval : string) (n : Z) :
  main.interval_mins interval <> Ok (PyInt n).
Proof.
  unfold main.interval_mins, rbind.
  destruct (str_last interval) as [dur|e]; [|discriminate].
  destruct (String.eqb dur "h"); [simpl; discriminate|].
  destruct (String.eqb dur "m"); [discriminate|].
  destruct (String.eqb dur "d"); [simpl; discriminate|discriminate].
Qed.

(** So the timer cannot even compute its period: [max(1, no_mins)] meets a
    string, or [interval_mins] has raised already. *)
Lemma period_mins_always_raises (interval : string) :
  exists e, main.period_mins interval = Raise e.
Proof.
  unfold main.period_mins, rbind.
  destruct (main.interval_mins interval) as [[n|s]|e] eqn:E.
  - exfalso. exact (interval_mins_never_int _ _ E).
  - exists TypeError. reflexivity.
  - exists e. reflexivity.
Qed.

(** C1 (the code departs from the claim).  The docstring promises minutes
    as a number: 15 for '15m', 60 for '1h', 1440 for '1d'.  On '1h' the
    function returns the string "1" repeated sixty times, on '15m' the
    string "15", on '1d' the string "1" repeated 1440 times; none of them is
    the int the claim states, and [max(1, no_mins)] raises TypeError on it. *)
Theorem C1_interval_mins_returns_a_string :
  main.interval_mins "1h" = Ok (PyStr (str_repeat "1" 60)) /\
  main.interval_mins "15m" = Ok (PyStr "15") /\
  main.interval_mins "1d" = Ok (PyStr (str_repeat "1" 1440)) /\
  main.interval_mins "1h" <> Ok (PyInt 60) /\
  main.interval_mins "15m" <> Ok (PyInt 15) /\
  main.interval_mins "1d" <> Ok (PyInt 1440) /\
  main.period_mins "1h" = Raise TypeError.
Proof.
  repeat split; try (vm_compute; reflexivity); apply interval_mins_never_int.
Qed.

(* ===================================================================== *)
(** * The sliding window *)
(* ===================================================================== *)

Section WindowFacts.
Context {A : Type}.
Implicit Types (d xs : list A) (x : A) (N : nat).

(** A push on a window that is not yet full. *)
Lemma Window_on_tick_room d N x :
  (length d < N)%nat ->
  Window.on_tick x (Window.mk d N) = (Ok None, Window.mk (d ++ [x]) N).
Proof.
  intros Hlt.
  unfold Window.on_tick, bind, get, ret, Window.append, Window.is_full,
    Window.deque_append. simpl.
  destruct (Nat.eqb_spec (length d) N) as [E|_]; [lia|]. simpl.
  rewrite length_app. simpl.
  destruct (Nat.ltb_spec N (length d + 1)) as [H|_]; [lia|]. reflexivity.
Qed.

(** A push on a full window of capacity at least one. *)
Lemma Window_on_tick_full old d N x :
  length (old :: d) = N ->
  Window.on_tick x (Window.mk (old :: d) N) = (Ok (Some old), Window.mk (d ++ [x]) N).
Proof.
  intros Hlen.
  unfold Window.on_tick, bind, get, ret, Window.append, Window.is_full,
    Window.popleft, Window.deque_append.
  cbn [Window.data Window.maxlen].
  destruct (Nat.eqb_spec (length (old :: d)) N) as [_|E]; [|contradiction].
  cbn [Window.data Window.maxlen]. rewrite length_app.
  destruct (Nat.ltb_spec N (length d + length [x])) as [H|_].
  - simpl in *. lia.
  - reflexivity.
Qed.

Lemma held_length N xs : (length (held N xs) <= N)%nat.
Proof. unfold held. rewrite length_skipn. lia. Qed.

Lemma held_short N xs : (length xs <= N)%nat -> held N xs = xs.
Proof.
  intros H. unfold held. replace (length xs - N)%nat with 0%nat by lia. reflexivity.
Qed.

Lemma skipn_cons_nth_error xs : forall k x,
  nth_error xs k = Some x -> skipn k xs = x :: skipn (S k) xs.
Proof.
  induction xs as [|y ys IH]; intros [|k] x H; simpl in *; try discriminate.
  - now inversion H.
  - now apply IH.
Qed.

(** Once [N] elements have arrived, the oldest one held is the one that
    arrived [N] pushes ago, and a further arrival shifts the window by one. *)
Lemma held_full N xs :
  (1 <= N <= length xs)%nat ->
  exists old rest,
    nth_error xs (length xs - N) = Some old /\
    held N xs = old :: rest /\
    length (old :: rest) = N /\
    forall x, held N (xs ++ [x]) = rest ++ [x].
Proof.
  intros [H1 H2].
  destruct (nth_error xs (length xs - N)) as [old|] eqn:E.
  2:{ apply nth_error_None in E. lia. }
  exists old, (skipn (S (length xs - N)) xs).
  split; [reflexivity|]. split; [now apply skipn_cons_nth_error|].
  split.
  - simpl. rewrite length_skipn. lia.
  - intros x. unfold held. rewrite length_app. simpl.
    replace (length xs + 1 - N)%nat with (S (length xs - N)) by lia.
    rewrite skipn_app.
    replace (S (length xs - N) - length xs)%nat with 0%nat by lia.
    reflexivity.
Qed.

(** One push, on the window that a sequence [xs] leaves behind. *)
Lemma Window_on_tick_held N xs x :
  (1 <= N)%nat ->
  Window.on_tick x (Window.mk (held N xs) N)
  = (Ok (if (length xs <? N)%nat then None else nth_error xs (length xs - N)),
     Window.mk (held N (xs ++ [x])) N).
Proof.
  intros HN.
  destruct (Nat.ltb_spec (length xs) N) as [Hlt|Hge].
  - rewrite (held_short N xs) by lia.
    rewrite (held_short N (xs ++ [x])) by (rewrite length_app; simpl; lia).
    now apply Window_on_tick_room.
  - destruct (held_full N xs) as (old & rest & Hn & Hh & Hl & Hs); [lia|].
    rewrite Hh, Hs, Hn. now apply Window_on_tick_full.
Qed.

Lemma Window_feed_app xs : forall ys (w : Window.Window A),
  Window.feed (xs ++ ys) w
  = match Window.feed xs w with
    | (Ok o1, w1) =>
        match Window.feed ys w1 with
        | (Ok o2, w2) => (Ok (o1 ++ o2), w2)
        | (Raise e, w2) => (Raise e, w2)
        end
    | (Raise e, w1) => (Raise e, w1)
    end.
Proof.
  induction xs as [|x xs IH]; intros ys w; simpl.
  - unfold ret. destruct (Window.feed ys w) as [[o|e] w2]; reflexivity.
  - unfold bind, ret.
    destruct (Window.on_tick x w) as [[o|e] w1]; [|reflexivity].
    rewrite IH.
    destruct (Window.feed xs w1) as [[o1|e] w2]; [|reflexivity].
    destruct (Window.feed ys w2) as [[o2|e] w3]; reflexivity.
Qed.

Lemma evicted_snoc N xs x :
  (1 <= N)%nat ->
  evicted N (xs ++ [x])
  = evicted N xs ++ [if (length xs <? N)%nat then None else nth_error xs (length xs - N)].
Proof.
  intros HN. unfold evicted. rewrite length_app. simpl length.
  rewrite seq_app, map_app. simpl. f_equal.
  - apply map_ext_in. intros k Hk. apply in_seq in Hk.
    destruct (k <? N)%nat; [reflexivity|].
    apply nth_error_app1. lia.
  - destruct (Nat.ltb_spec (length xs) N); [reflexivity|].
    f_equal. apply nth_error_app1. lia.
Qed.

(** Feeding a whole sequence to a fresh window never raises; it leaves the
    last [N] arrivals and returns the evictions of [evicted]. *)
Lemma Window_feed_init N xs :
  (1 <= N)%nat ->
  Window.feed xs (Window.init N) = (Ok (evicted N xs), Window.mk (held N xs) N).
Proof.
  intros HN. induction xs as [|x xs IH] using rev_ind.
  - reflexivity.
  - rewrite Window_feed_app, IH. simpl.
    unfold bind. rewrite Window_on_tick_held by exact HN.
    unfold ret. rewrite evicted_snoc by exact HN. reflexivity.
Qed.

End WindowFacts.

(** C7.  For every capacity [N >= 1] and every input sequence [xs] fed to a
    fresh window: no push raises, the window then holds the last [N]
    arrivals in arrival order, hence at most [N] elements; it is full
    exactly when [N] elements have arrived; a further push on a full window
    removes and returns its head, which is the element that arrived [N]
    pushes ago (the oldest one still held), and appends the new element; a
    further push on a window that is not full returns absent and appends;
    the window holds at most [N] elements after that push too. *)
Theorem C7_window_bounded_fifo {A : Type} (N : nat) (xs : list A) (x : A) :
  (1 <= N)%nat ->
  let w := Window.mk (held N xs) N in
  Window.feed xs (Window.init N) = (Ok (evicted N xs), w) /\
  (length (Window.data w) <= N)%nat /\
  Window.is_full w = (N <=? length xs)%nat /\
  (Window.is_full w = true ->
   hd_error (Window.data w) = nth_error xs (length xs - N) /\
   exists old,
     hd_error (Window.data w) = Some old /\
     Window.on_tick x w = (Ok (Some old), Window.mk (tl (Window.data w) ++ [x]) N)) /\
  (Window.is_full w = false ->
   Window.on_tick x w = (Ok None, Window.mk (Window.data w ++ [x]) N)) /\
  (length (Window.data (snd (Window.on_tick x w))) <= N)%nat.
Proof.
  intros HN w.
  assert (Hfull : Window.is_full w = (N <=? length xs)%nat).
  { unfold Window.is_full, w, held. simpl. rewrite length_skipn.
    destruct (Nat.leb_spec N (length xs)); [apply Nat.eqb_eq|apply Nat.eqb_neq]; lia. }
  split; [now apply Window_feed_init|].
  split; [apply held_length|].
  split; [exact Hfull|].
  split; [|split].
  - rewrite Hfull. intros Hle. apply Nat.leb_le in Hle.
    destruct (held_full N xs) as (old & rest & Hn & Hh & Hl & _); [lia|].
    unfold w. simpl. rewrite Hh, Hn. split; [reflexivity|].
    exists old. split; [reflexivity|]. now apply Window_on_tick_full.
  - rewrite Hfull. intros Hgt. apply Nat.leb_gt in Hgt.
    unfold w. simpl. rewrite (held_short N xs) by lia.
    now apply Window_on_tick_room.
  - unfold w. rewrite Window_on_tick_held by exact HN. simpl. apply held_length.
Qed.

(** Capacity 2, arrivals 10, 20, 30, then 40: the third push evicted 10,
    the window holds 20 and 30, and the push of 40 evicts 20. *)
Lemma C7_window_bounded_fifo_witness :
  (1 <= 2)%nat /\
  Window.feed [10; 20; 30]%nat (Window.init 2)
  = (Ok [None; None; Some 10%nat], Window.mk [20; 30]%nat 2) /\
  Window.on_tick 40%nat (Window.mk [20; 30]%nat 2)
  = (Ok (Some 20%nat), Window.mk [30; 40]%nat 2).
Proof.
  assert (H : (1 <= 2)%nat) by lia.
  destruct (C7_window_bounded_fifo 2 [10; 20; 30]%nat 40%nat H)
    as (Hfeed & _ & _ & Hpush & _ & _).
  split; [exact H|]. split; [exact Hfeed|].
  destruct (Hpush eq_refl) as (_ & old & Hold & Htick).
  injection Hold as <-. exact Htick.
Defined.

(* ===================================================================== *)
(** * create_model *)
(* ===================================================================== *)

(** C10.  [create_model] reads the 'weight' entry twice: the model's
    weights and its bias are both the configured weight (a KeyError if
    there is none).  The 'bias' entry is never read: setting it to any
    value, or deleting it, changes nothing. *)
Theorem C10_create_model_bias_is_weight (params : main.Params) :
  main.create_model params
  = match main.model params !! "weight" with
    | Some w => Ok (LinReg.mk w w)
    | None => Raise (KeyError "weight")
    end /\
  (forall m, main.create_model params = Ok m ->
             Some (LinReg.bias m) = main.model params !! "weight" /\
             LinReg.bias m = LinReg.weights m) /\
  (forall b : R,
     main.create_model
       (main.mkParams (<["bias" := b]> (main.model params)) (main.sym params)
          (main.interval params))
     = main.create_model params) /\
  main.create_model
    (main.mkParams (delete "bias" (main.model params)) (main.sym params)
       (main.interval params))
  = main.create_model params.
Proof.
  assert (Hm : forall p, main.create_model p
                         = match main.model p !! "weight" with
                           | Some w => Ok (LinReg.mk w w)
                           | None => Raise (KeyError "weight")
                           end).
  { intros p. unfold main.create_model, main.getitem, rbind.
    destruct (main.model p !! "weight"); reflexivity. }
  split; [apply Hm|]. split; [|split].
  - intros m. rewrite Hm.
    destruct (main.model params !! "weight") as [w|]; [|discriminate].
    intros [= <-]. simpl. split; reflexivity.
  - intros b. rewrite !Hm. simpl. rewrite lookup_insert_ne by discriminate. reflexivity.
  - rewrite !Hm. simpl. rewrite lookup_delete_ne by discriminate. reflexivity.
Qed.

(* ===================================================================== *)
(** * The timer's sleep *)
(* ===================================================================== *)

(** C6 (the code departs from the claim).  The docstring of
    [trade_periodically] gives the wait for '1h' at 10:37:45 as 22 minutes
    and 15 seconds.  The code never computes a wait: [interval_mins]
    returns a string, [max(1, no_mins)] raises TypeError on it (or
    [interval_mins] has raised already), and that for every interval and
    every clock reading.  Lines 108-120 by themselves, given the period 60
    as an int, yield 1335.0001 at 10:37:45.000000. *)
Theorem C6_trade_periodically_raises_before_sleeping :
  main.trade_periodically_sleep "1h" (main.mkDatetime 10 37 45 0) = Raise TypeError /\
  (forall interval now, exists e, main.trade_periodically_sleep interval now = Raise e) /\
  main.sleep_for_period 60 (main.mkDatetime 10 37 45 0) = Ok 1335.0001%float.
Proof.
  split; [reflexivity|]. split; [|vm_compute; reflexivity].
  intros interval now. unfold main.trade_periodically_sleep.
  destruct (period_mins_always_raises interval) as [e He].
  unfold main.period_mins in He. exists e.
  unfold rbind in *.
  destruct (main.interval_mins interval) as [no_mins|e0];
    [|injection He as <-; reflexivity].
  destruct (py_max_1 no_mins) as [period|e1];
    [discriminate|injection He as <-; reflexivity].
Qed.

(* ===================================================================== *)
(** * The feature engine *)
(* ===================================================================== *)

Lemma Rsign_pos (x : R) : (0 < x)%R -> np.Rsign x = Gt.
Proof. intros H. unfold np.Rsign. destruct (Rlt_dec 0 x); [reflexivity|contradiction]. Qed.

Lemma Rsign_neg (x : R) : (x < 0)%R -> np.Rsign x = Lt.
Proof.
  intros H. unfold np.Rsign.
  destruct (Rlt_dec 0 x); [lra|]. destruct (Rlt_dec x 0); [reflexivity|contradiction].
Qed.

Lemma Rsign_zero : np.Rsign 0 = Eq.
Proof.
  unfold np.Rsign. destruct (Rlt_dec 0 0); [lra|]. reflexivity.
Qed.

Lemma log_pos (x : R) : (0 < x)%R -> np.log x = np.Finite (ln x).
Proof. intros H. unfold np.log. now rewrite Rsign_pos. Qed.

Lemma log_zero : np.log 0 = np.NegInf.
Proof. unfold np.log. now rewrite Rsign_zero. Qed.

(** The first tick of a fresh engine: the window is not full, no value. *)
Lemma LogReturn_on_tick_first (p : R) :
  LogReturn.on_tick p LogReturn.init = (Ok None, LogReturn.mk (Window.mk [p] 2)).
Proof. reflexivity. Qed.

(** A tick when the engine already holds a price [oldest] (alone, or after
    an older one that the push evicts). *)
Lemma LogReturn_on_tick_next (d : list R) (oldest newest : R) :
  (length d <= 1)%nat ->
  LogReturn.on_tick newest (LogReturn.mk (Window.mk (d ++ [oldest]) 2))
  = (match LogReturn.truediv newest oldest with
     | Ok ratio => Ok (Some (np.log ratio))
     | Raise e => Raise e
     end,
     LogReturn.mk (Window.mk [oldest; newest] 2)).
Proof.
  intros Hd.
  assert (Hpush : Window.on_tick newest (Window.mk (d ++ [oldest]) 2)
                  = (Ok (hd_error (removelast (d ++ [oldest]))),
                     Window.mk [oldest; newest] 2)).
  { destruct d as [|a [|b d]]; simpl in Hd; [reflexivity|reflexivity|lia]. }
  unfold LogReturn.on_tick, LogReturn.with_price, zoom, bind, get.
  cbn [LogReturn.price]. rewrite Hpush.
  cbn [LogReturn.price Window.is_full Window.data Window.maxlen length Nat.eqb
       Window.getitem nth_error lift_result ret].
  destruct (LogReturn.truediv newest oldest); reflexivity.
Qed.

(** The engine returns no value on its very first tick only: with one or
    two prices held already, a tick returns a value or raises. *)
Lemma LogReturn_absent_iff_first (p : R) (d : list R) :
  (length d <= 2)%nat ->
  fst (LogReturn.on_tick p (LogReturn.mk (Window.mk d 2))) = Ok None <-> d = [].
Proof.
  intros Hd. split; [|intros ->; reflexivity].
  destruct d as [|a d]; [reflexivity|]. intros Habsent. exfalso.
  assert (Hsplit : exists d0 oldest, a :: d = d0 ++ [oldest] /\ (length d0 <= 1)%nat).
  { destruct d as [|b [|c d]]; simpl in Hd.
    - exists [], a. split; [reflexivity|simpl; lia].
    - exists [a], b. split; [reflexivity|simpl; lia].
    - lia. }
  destruct Hsplit as (d0 & oldest & Heq & Hd0).
  rewrite Heq, LogReturn_on_tick_next in Habsent by exact Hd0.
  cbn [fst] in Habsent.
  destruct (LogReturn.truediv p oldest); discriminate.
Qed.

Lemma held_app_drop {A : Type} (N : nat) (d l : list A) :
  (N <= length l)%nat -> held N (d ++ l) = held N l.
Proof.
  intros H. unfold held. rewrite length_app, skipn_app.
  rewrite skipn_all2 by lia.
  replace (length d + length l - N - length d)%nat with (length l - N)%nat by lia.
  reflexivity.
Qed.

(** Feeding positive prices to an engine that holds [oldest]. *)
Lemma LogReturn_feed_from (rest : list R) : forall (d : list R) (oldest : R),
  (length d <= 1)%nat ->
  (0 < oldest)%R ->
  Forall (fun p => (0 < p)%R) rest ->
  LogReturn.feed rest (LogReturn.mk (Window.mk (d ++ [oldest]) 2))
  = (Ok (log_returns_from oldest rest),
     LogReturn.mk (Window.mk (held 2 (d ++ oldest :: rest)) 2)).
Proof.
  induction rest as [|p rest IH]; intros d oldest Hd Hold Hall.
  - simpl. unfold ret. rewrite held_short by (rewrite length_app; simpl; lia).
    reflexivity.
  - inversion Hall as [|? ? Hp Hrest]; subst.
    cbn [LogReturn.feed log_returns_from]. unfold bind.
    rewrite LogReturn_on_tick_next by exact Hd.
    unfold LogReturn.truediv.
    destruct (Req_dec_T oldest 0) as [E|_]; [lra|].
    rewrite log_pos by (apply Rdiv_lt_0_compat; assumption).
    assert (Hd1 : (length [oldest] <= 1)%nat) by (simpl; lia).
    pose proof (IH [oldest] p Hd1 Hp Hrest) as Hfeed.
    cbn [app] in Hfeed. rewrite Hfeed. unfold ret.
    rewrite (held_app_drop 2 d (oldest :: p :: rest)) by (simpl; lia).
    reflexivity.
Qed.

Lemma LogReturnOver_on_tick_first {F G : Type}
    (truediv : F -> F -> result F) (log : F -> G) (p : F) :
  LogReturnOver.on_tick truediv log p LogReturnOver.init
  = (Ok None, LogReturnOver.mk (Window.mk [p] 2)).
Proof. reflexivity. Qed.

Lemma LogReturnOver_on_tick_next {F G : Type}
    (truediv : F -> F -> result F) (log : F -> G) (d : list F) (oldest newest : F) :
  (length d <= 1)%nat ->
  LogReturnOver.on_tick truediv log newest (LogReturnOver.mk (Window.mk (d ++ [oldest]) 2))
  = (match truediv newest oldest with
     | Ok ratio => Ok (Some (log ratio))
     | Raise e => Raise e
     end,
     LogReturnOver.mk (Window.mk [oldest; newest] 2)).
Proof.
  intros Hd.
  assert (Hpush : Window.on_tick newest (Window.mk (d ++ [oldest]) 2)
                  = (Ok (hd_error (removelast (d ++ [oldest]))),
                     Window.mk [oldest; newest] 2)).
  { destruct d as [|a [|b d]]; simpl in Hd; [reflexivity|reflexivity|lia]. }
  unfold LogReturnOver.on_tick, LogReturnOver.with_price, zoom, bind, get.
  cbn [LogReturnOver.price]. rewrite Hpush.
  cbn [LogReturnOver.price Window.is_full Window.data Window.maxlen length Nat.eqb
       Window.getitem nth_error lift_result ret].
  destruct (truediv newest oldest); reflexivity.
Qed.

Lemma LogReturnOver_feed_from {F G : Type}
    (truediv : F -> F -> result F) (log : F -> G) (rest : list F) :
  forall (d : list F) (oldest : F),
    (length d <= 1)%nat ->
    fst (LogReturnOver.feed truediv log rest
           (LogReturnOver.mk (Window.mk (d ++ [oldest]) 2)))
    = LogReturnOver.neighbour_logs_from truediv log oldest rest.
Proof.
  induction rest as [|p rest IH]; intros d oldest Hd; [reflexivity|].
  cbn [LogReturnOver.feed LogReturnOver.neighbour_logs_from]. unfold bind, rbind.
  rewrite LogReturnOver_on_tick_next by exact Hd.
  destruct (truediv p oldest) as [ratio|e]; [|reflexivity].
  assert (Hd1 : (length [oldest] <= 1)%nat) by (simpl; lia).
  pose proof (IH [oldest] p Hd1) as Hrest. cbn [app] in Hrest.
  rewrite <- Hrest.
  destruct (LogReturnOver.feed truediv log rest
              (LogReturnOver.mk (Window.mk [oldest; p] 2))) as [[os|e] lr];
    reflexivity.
Qed.

(** The engine over the real numbers is the engine over an arbitrary
    arithmetic, at real division and [np.log]. *)
Lemma LogReturn_is_an_instance (p : R) (w : Window.Window R) :
  LogReturnOver.on_tick LogReturn.truediv np.log p (LogReturnOver.mk w)
  = (fst (LogReturn.on_tick p (LogReturn.mk w)),
     LogReturnOver.mk (LogReturn.price (snd (LogReturn.on_tick p (LogReturn.mk w))))).
Proof.
  unfold LogReturnOver.on_tick, LogReturn.on_tick, LogReturnOver.with_price,
    LogReturn.with_price, zoom, bind, get, ret, lift_result, Window.getitem.
  cbn [LogReturnOver.price LogReturn.price].
  destruct (Window.on_tick p w) as [[o|e] w']; [|reflexivity].
  cbn [LogReturnOver.price LogReturn.price].
  destruct (Window.is_full w'); [|reflexivity].
  cbn [LogReturnOver.price LogReturn.price].
  destruct (nth_error (Window.data w') 1) as [newest|]; [|reflexivity].
  cbn [LogReturnOver.price LogReturn.price].
  destruct (nth_error (Window.data w') 0) as [oldest|]; [|reflexivity].
  destruct (LogReturn.truediv newest oldest); reflexivity.
Qed.

(** C8, at a first price of 0: the second tick returns no logarithm, it
    raises ZeroDivisionError. *)
Lemma C8_zero_then_100_raises :
  LogReturn.feed [0; 100]%R LogReturn.init
  = (Raise ZeroDivisionError, LogReturn.mk (Window.mk [0; 100]%R 2)) /\
  ~ (exists outs lr, LogReturn.feed [0; 100]%R LogReturn.init = (Ok outs, lr)).
Proof.
  assert (H : LogReturn.feed [0; 100]%R LogReturn.init
              = (Raise ZeroDivisionError, LogReturn.mk (Window.mk [0; 100]%R 2))).
  { cbn [LogReturn.feed]. unfold bind.
    rewrite LogReturn_on_tick_first.
    assert (Hd0 : (length (@nil R) <= 1)%nat) by (simpl; lia).
    pose proof (LogReturn_on_tick_next [] 0 100 Hd0) as Hnext.
    cbn [app] in Hnext. rewrite Hnext.
    unfold LogReturn.truediv.
    destruct (Req_dec_T 0 0) as [_|E]; [reflexivity|contradiction]. }
  split; [exact H|].
  intros (outs & lr & Hok). rewrite H in Hok. discriminate.
Qed.

(** C8, as amended.  Whatever the arithmetic (division that may raise,
    logarithm), and for every sequence of prices fed to a fresh engine:
    the first tick returns absent; every later tick divides the newest by
    the oldest of the two prices held after the push, which are the price
    of this tick and the price of the tick before, and returns the
    logarithm of the quotient; a division that raises (an oldest price of
    0) ends the tick with that exception. *)
Theorem C8_log_of_newest_over_oldest {F G : Type}
    (truediv : F -> F -> result F) (log : F -> G) (prices : list F) :
  fst (LogReturnOver.feed truediv log prices LogReturnOver.init)
  = LogReturnOver.neighbour_logs truediv log prices /\
  (forall first,
     LogReturnOver.on_tick truediv log first LogReturnOver.init
     = (Ok None, LogReturnOver.mk (Window.mk [first] 2))) /\
  (forall d oldest newest,
     (length d <= 1)%nat ->
     LogReturnOver.on_tick truediv log newest
       (LogReturnOver.mk (Window.mk (d ++ [oldest]) 2))
     = (match truediv newest oldest with
        | Ok ratio => Ok (Some (log ratio))
        | Raise e => Raise e
        end,
        LogReturnOver.mk (Window.mk [oldest; newest] 2))).
Proof.
  split; [|split].
  - destruct prices as [|first rest]; [reflexivity|].
    cbn [LogReturnOver.feed LogReturnOver.neighbour_logs]. unfold bind, rbind.
    rewrite LogReturnOver_on_tick_first.
    assert (Hd0 : (length (@nil F) <= 1)%nat) by (simpl; lia).
    pose proof (LogReturnOver_feed_from truediv log rest [] first Hd0) as Hrest.
    cbn [app] in Hrest. rewrite <- Hrest.
    destruct (LogReturnOver.feed truediv log rest
                (LogReturnOver.mk (Window.mk [first] 2))) as [[os|e] lr];
      reflexivity.
  - intros first. apply LogReturnOver_on_tick_first.
  - intros d oldest newest Hd. now apply LogReturnOver_on_tick_next.
Qed.

(** C4, at the claim's own example: feeding 100 then 0 raises nothing; the
    zero is the newest price, the ratio is 0 and [np.log] returns [-inf],
    which the engine hands on. *)
Lemma C4_feeding_100_then_0_returns_neg_inf :
  LogReturn.feed [100; 0]%R LogReturn.init
  = (Ok [None; Some np.NegInf], LogReturn.mk (Window.mk [100; 0]%R 2)) /\
  ~ (exists e lr, LogReturn.feed [100; 0]%R LogReturn.init = (Raise e, lr)).
Proof.
  assert (H : LogReturn.feed [100; 0]%R LogReturn.init
              = (Ok [None; Some np.NegInf], LogReturn.mk (Window.mk [100; 0]%R 2))).
  { cbn [LogReturn.feed]. unfold bind.
    rewrite LogReturn_on_tick_first.
    assert (Hd0 : (length (@nil R) <= 1)%nat) by (simpl; lia).
    pose proof (LogReturn_on_tick_next [] 100 0 Hd0) as Hnext.
    cbn [app] in Hnext. rewrite Hnext.
    unfold LogReturn.truediv.
    destruct (Req_dec_T 100 0) as [E|_]; [lra|].
    replace (0 / 100)%R with 0%R by lra. rewrite log_zero. reflexivity. }
  split; [exact H|].
  intros (e & lr & He). rewrite H in He. discriminate.
Qed.

(** C4, as amended.  When the price the window holds as its oldest after
    the push is 0, the division raises ZeroDivisionError, and no value
    reaches the predictor.  When the oldest is not 0 and the newest is, as
    on feeding 100 then 0, nothing is raised and the feature is [-inf]. *)
Theorem C4_zero_oldest_raises (d : list R) (newest oldest : R) :
  (length d <= 1)%nat ->
  LogReturn.on_tick newest (LogReturn.mk (Window.mk (d ++ [0%R]) 2))
  = (Raise ZeroDivisionError, LogReturn.mk (Window.mk [0%R; newest] 2)) /\
  (oldest <> 0%R ->
   LogReturn.on_tick 0%R (LogReturn.mk (Window.mk (d ++ [oldest]) 2))
   = (Ok (Some np.NegInf), LogReturn.mk (Window.mk [oldest; 0%R] 2))).
Proof.
  intros Hd. split.
  - rewrite LogReturn_on_tick_next by exact Hd.
    unfold LogReturn.truediv.
    destruct (Req_dec_T 0 0) as [_|E]; [reflexivity|contradiction].
  - intros Hold. rewrite LogReturn_on_tick_next by exact Hd.
    unfold LogReturn.truediv.
    destruct (Req_dec_T oldest 0) as [E|_]; [contradiction|].
    replace (0 / oldest)%R with 0%R by (field; assumption).
    now rewrite log_zero.
Qed.

(** Prices 0 then 100: the second tick raises ZeroDivisionError. *)
Lemma C4_zero_oldest_raises_witness :
  (length (@nil R) <= 1)%nat /\
  LogReturn.feed [0; 100]%R LogReturn.init
  = (Raise ZeroDivisionError, LogReturn.mk (Window.mk [0; 100]%R 2)).
Proof.
  assert (H : (length (@nil R) <= 1)%nat) by (simpl; lia).
  split; [exact H|].
  cbn [LogReturn.feed]. unfold bind.
  rewrite LogReturn_on_tick_first.
  destruct (C4_zero_oldest_raises [] 100 1 H) as [Hraise _].
  cbn [app] in Hraise. rewrite Hraise. reflexivity.
Defined.

(* ===================================================================== *)
(** * The strategy *)
(* ===================================================================== *)

(** Project the fields of the strategy, of the exchange and of the
    process out of record literals, and nothing else. *)
Ltac fields :=
  cbn [BasicTakerStrat.self BasicTakerStrat.stdout
       BasicTakerStrat.exchange BasicTakerStrat.coin BasicTakerStrat.model
       BasicTakerStrat.lag BasicTakerStrat.sz BasicTakerStrat.leverage
       Exchange.respond Exchange.history].

Lemma sign_is_one_iff (y : R) :
  np.eqb (np.sign (np.Finite y)) (np.Finite 1) = true <-> (0 < y)%R.
Proof.
  unfold np.sign, np.Rsign, np.eqb.
  destruct (Rlt_dec 0 y) as [Hpos|Hnpos].
  - destruct (Req_dec_T 1 1) as [_|E]; [tauto|contradiction].
  - destruct (Rlt_dec y 0) as [Hneg|Hnneg].
    + destruct (Req_dec_T (-1) 1) as [E|_]; [lra|]. split; [discriminate|lra].
    + destruct (Req_dec_T 0 1) as [E|_]; [lra|]. split; [discriminate|lra].
Qed.

Lemma sign_is_one_false (y : R) :
  (y <= 0)%R -> np.eqb (np.sign (np.Finite y)) (np.Finite 1) = false.
Proof.
  intros H. destruct (np.eqb (np.sign (np.Finite y)) (np.Finite 1)) eqn:E; [|reflexivity].
  apply sign_is_one_iff in E. lra.
Qed.

(** What [execute] does, whatever the exchange answers with: both calls
    are made, in order, and each answer is printed. *)
Lemma execute_both_calls (order : Order.Order) (p : BasicTakerStrat.process) :
  let s := BasicTakerStrat.self p in
  let ex := BasicTakerStrat.exchange s in
  let close := Exchange.market_close (BasicTakerStrat.coin s) in
  let open := Exchange.market_open (BasicTakerStrat.coin s)
                (Order.is_buy order) (Order.sz order) in
  let h1 := (Exchange.history ex ++ [close])%list in
  (forall e, Exchange.respond ex (Exchange.history ex) close = Raise e ->
             is_Exception e = true) ->
  (forall e, Exchange.respond ex h1 open = Raise e -> is_Exception e = true) ->
  BasicTakerStrat.execute order p
  = (Ok tt,
     BasicTakerStrat.mkProcess
       (BasicTakerStrat.mk (Exchange.mk (Exchange.respond ex) (h1 ++ [open]))
          (BasicTakerStrat.coin s) (BasicTakerStrat.model s) (BasicTakerStrat.lag s)
          (BasicTakerStrat.sz s) (BasicTakerStrat.leverage s))
       (BasicTakerStrat.stdout p
        ++ [match Exchange.respond ex (Exchange.history ex) close with
            | Ok r => BasicTakerStrat.PositionClosed r
            | Raise e => BasicTakerStrat.ErrorClosePosition e
            end;
            match Exchange.respond ex h1 open with
            | Ok r => BasicTakerStrat.OrderOpened r
            | Raise e => BasicTakerStrat.ErrorOpeningPosition e
            end])).
Proof.
  destruct p as [[[respond history] coin model lag sz leverage] out].
  cbn zeta; fields.
  intros H1 H2.
  unfold BasicTakerStrat.execute, try_except_Exception, bind, get,
    BasicTakerStrat.with_exchange, zoom, Exchange.invoke, BasicTakerStrat.print.
  fields.
  destruct (respond history (Exchange.market_close coin)) as [r1|e1] eqn:E1;
    [|rewrite (H1 e1 eq_refl)];
    fields;
    (destruct (respond (history ++ [Exchange.market_close coin])%list
                 (Exchange.market_open coin (Order.is_buy order) (Order.sz order)))
       as [r2|e2] eqn:E2;
     [|rewrite (H2 e2 eq_refl)]);
    fields;
    rewrite <- (app_assoc out); reflexivity.
Qed.

(** C9.  For every order intent, and whatever exceptions (instances of
    [Exception]) the exchange raises: [execute] calls [market_close], then
    calls [market_open] whether or not the close failed, prints the report
    or the error of each call, and returns normally. *)
Theorem C9_execute_attempts_both_and_returns
    (order : Order.Order) (p : BasicTakerStrat.process) :
  (forall h c e,
     Exchange.respond (BasicTakerStrat.exchange (BasicTakerStrat.self p)) h c = Raise e ->
     is_Exception e = true) ->
  let s := BasicTakerStrat.self p in
  let ex := BasicTakerStrat.exchange s in
  let close := Exchange.market_close (BasicTakerStrat.coin s) in
  let open := Exchange.market_open (BasicTakerStrat.coin s)
                (Order.is_buy order) (Order.sz order) in
  exists p',
    BasicTakerStrat.execute order p = (Ok tt, p') /\
    Exchange.history (BasicTakerStrat.exchange (BasicTakerStrat.self p'))
    = (Exchange.history ex ++ [close; open])%list /\
    BasicTakerStrat.stdout p'
    = (BasicTakerStrat.stdout p
       ++ [match Exchange.respond ex (Exchange.history ex) close with
           | Ok r => BasicTakerStrat.PositionClosed r
           | Raise e => BasicTakerStrat.ErrorClosePosition e
           end;
           match Exchange.respond ex (Exchange.history ex ++ [close]) open with
           | Ok r => BasicTakerStrat.OrderOpened r
           | Raise e => BasicTakerStrat.ErrorOpeningPosition e
           end])%list.
Proof.
  intros Hexn s ex close open.
  eexists. split.
  - apply execute_both_calls; intros e He; exact (Hexn _ _ _ He).
  - fields.
    split; [|reflexivity]. rewrite <- app_assoc. reflexivity.
Qed.

(** An exchange that rejects every call: the close fails, the open is
    attempted all the same, both errors are printed, nothing propagates. *)
Lemma C9_execute_attempts_both_and_returns_witness :
  (forall h c e, Exchange.respond rejecting_exchange h c = Raise e -> is_Exception e = true) /\
  exists p',
    BasicTakerStrat.execute (Order.mk "BTC" (2 / 10000) true)
      (BasicTakerStrat.mkProcess (sample_strat rejecting_exchange 1 0 LogReturn.init) [])
    = (Ok tt, p') /\
    Exchange.history (BasicTakerStrat.exchange (BasicTakerStrat.self p'))
    = [Exchange.market_close "BTC"; Exchange.market_open "BTC" true (2 / 10000)] /\
    BasicTakerStrat.stdout p'
    = [BasicTakerStrat.ErrorClosePosition (ExchangeError "rejected");
       BasicTakerStrat.ErrorOpeningPosition (ExchangeError "rejected")].
Proof.
  assert (H : forall h c e,
             Exchange.respond rejecting_exchange h c = Raise e -> is_Exception e = true).
  { intros h c e [= <-]. reflexivity. }
  split; [exact H|].
  exact (C9_execute_attempts_both_and_returns (Order.mk "BTC" (2 / 10000) true)
           (BasicTakerStrat.mkProcess (sample_strat rejecting_exchange 1 0 LogReturn.init) [])
           H).
Defined.

(** [except Exception] lets a [KeyboardInterrupt] through: the hypothesis
    of C9 on the class of the exchange's exceptions is needed. *)
Lemma execute_lets_BaseException_through (order : Order.Order) :
  fst (BasicTakerStrat.execute order
         (BasicTakerStrat.mkProcess
            (sample_strat (Exchange.mk (fun _ _ => Raise KeyboardInterrupt) []) 1 0
               LogReturn.init) []))
  = Raise KeyboardInterrupt.
Proof. reflexivity. Qed.




(** A tick for which the engine returns a value and the model a forecast:
    the order of [strategy] is executed. *)
Lemma on_tick_with_feature (price : R) (p : BasicTakerStrat.process)
    (feature y_hat : np.npfloat) (lr : LogReturn.LogReturn) :
  let s := BasicTakerStrat.self p in
  LogReturn.on_tick price (BasicTakerStrat.lag s) = (Ok (Some feature), lr) ->
  LinReg.predict (BasicTakerStrat.model s) (Some feature) = Ok y_hat ->
  BasicTakerStrat.on_tick price p
  = BasicTakerStrat.execute (BasicTakerStrat.strategy s y_hat)
      (BasicTakerStrat.mkProcess
         (BasicTakerStrat.mk (BasicTakerStrat.exchange s) (BasicTakerStrat.coin s)
            (BasicTakerStrat.model s) lr (BasicTakerStrat.sz s) (BasicTakerStrat.leverage s))
         (BasicTakerStrat.stdout p
          ++ [BasicTakerStrat.OnTick price;
              BasicTakerStrat.CalculatedLogReturn (Some feature);
              BasicTakerStrat.ForecastFutureLogReturn y_hat;
              BasicTakerStrat.OrderLine (BasicTakerStrat.strategy s y_hat)])).
Proof.
  destruct p as [[ex coin model lag sz leverage] out].
  cbn zeta; fields.
  intros Hlag Hpred.
  unfold BasicTakerStrat.on_tick, bind, BasicTakerStrat.print, BasicTakerStrat.with_lag,
    zoom, get, lift_result.
  fields.
  rewrite Hlag.
  fields.
  rewrite Hpred.
  fields.
  unfold BasicTakerStrat.strategy.
  fields.
  rewrite <- !app_assoc. reflexivity.
Qed.

(** C3, at a forecast of exactly 0: the specification's rule returns no
    order intent, [strategy] returns an order with [is_buy = False], and a
    tick whose forecast is 0 (weight 0 and bias 0) closes the position and
    opens a sell. *)
Lemma C3_zero_forecast_is_a_sell_order :
  DecisionPolicy_spec 0 = None /\
  BasicTakerStrat.strategy
    (sample_strat filling_exchange 0 0 (LogReturn.mk (Window.mk [100%R] 2))) (np.Finite 0)
  = Order.mk "BTC" (2 / 10000) false /\
  Exchange.history
    (BasicTakerStrat.exchange
       (BasicTakerStrat.self
          (snd (BasicTakerStrat.on_tick 110
                  (BasicTakerStrat.mkProcess
                     (sample_strat filling_exchange 0 0
                        (LogReturn.mk (Window.mk [100%R] 2))) [])))))
  = [Exchange.market_close "BTC"; Exchange.market_open "BTC" false (2 / 10000)].
Proof.
  split; [unfold DecisionPolicy_spec; now rewrite Rsign_zero|].
  split.
  - unfold BasicTakerStrat.strategy. rewrite sign_is_one_false by lra. reflexivity.
  - assert (Hd0 : (length (@nil R) <= 1)%nat) by (simpl; lia).
    pose proof (LogReturn_on_tick_next [] 100 110 Hd0) as Hnext.
    cbn [app] in Hnext. unfold LogReturn.truediv in Hnext.
    destruct (Req_dec_T 100 0) as [E|_]; [lra|].
    rewrite log_pos in Hnext by lra.
    rewrite (on_tick_with_feature 110
               (BasicTakerStrat.mkProcess
                  (sample_strat filling_exchange 0 0 (LogReturn.mk (Window.mk [100%R] 2))) [])
               _ (np.Finite (ln (110 / 100) * 0 + 0)) _ Hnext)
      by reflexivity.
    unfold BasicTakerStrat.strategy.
    rewrite sign_is_one_false by lra.
    reflexivity.
Qed.

(** C3, as amended.  [strategy] always returns an order.  A forecast of
    +0.01 gives [is_buy = True], a forecast of -0.01 gives
    [is_buy = False], and a forecast of exactly 0 gives [is_buy = False]
    too, a sell order; a finite forecast gives a buy exactly when it is
    positive. *)
Theorem C3_strategy_buys_iff_positive (self : BasicTakerStrat.BasicTakerStrat) :
  BasicTakerStrat.strategy self (np.Finite (1 / 100))
  = Order.mk (BasicTakerStrat.coin self) (BasicTakerStrat.sz self) true /\
  BasicTakerStrat.strategy self (np.Finite (- (1 / 100)))
  = Order.mk (BasicTakerStrat.coin self) (BasicTakerStrat.sz self) false /\
  BasicTakerStrat.strategy self (np.Finite 0)
  = Order.mk (BasicTakerStrat.coin self) (BasicTakerStrat.sz self) false /\
  forall y : R,
    Order.is_buy (BasicTakerStrat.strategy self (np.Finite y)) = true <-> (0 < y)%R.
Proof.
  unfold BasicTakerStrat.strategy. repeat split.
  - f_equal. apply sign_is_one_iff. lra.
  - f_equal. apply sign_is_one_false. lra.
  - f_equal. apply sign_is_one_false. lra.
  - cbn [Order.is_buy]. apply sign_is_one_iff.
  - cbn [Order.is_buy]. apply sign_is_one_iff.
Qed.

(* ===================================================================== *)
(** * The reconnect loop *)
(* ===================================================================== *)

Lemma run_app (evs1 evs2 : list main.event) : forall s,
  main.run (evs1 ++ evs2) s
  = match main.run evs1 s with
    | Some s' => main.run evs2 s'
    | None => None
    end.
Proof.
  induction evs1 as [|ev evs1 IH]; intros s; simpl; [reflexivity|].
  destruct (main.step s ev); [apply IH|reflexivity].
Qed.

Lemma cancel_self (t : nat) : main.cancel t [t] = [].
Proof. unfold main.cancel. cbn [List.filter]. now rewrite Nat.eqb_refl. Qed.

Lemma step_single_timer (s s' : main.supervisor) (ev : main.event) :
  single_timer s -> main.step s ev = Some s' -> single_timer s'.
Proof.
  unfold single_timer, main.step.
  destruct s as [ph tasks n b]. cbn [main.at_phase main.live main.spawned main.backoff].
  intros Hinv Hstep.
  destruct ev as [| |t|t|out|].
  - destruct ph; try discriminate. injection Hstep as <-. subst tasks.
    cbn. left. reflexivity.
  - destruct ph; try discriminate. injection Hstep as <-. exact Hinv.
  - destruct (main.is_live t tasks); [|destruct ph; discriminate].
    assert (s' = main.mkSupervisor ph tasks n b) as -> by (destruct ph; congruence).
    exact Hinv.
  - destruct (main.is_live t tasks) eqn:Hl; [|destruct ph; discriminate].
    assert (s' = main.mkSupervisor ph (main.cancel t tasks) n b) as ->
      by (destruct ph; congruence).
    cbn [main.at_phase main.live].
    destruct ph as [|u| |e]; try (subst tasks; reflexivity).
    destruct Hinv as [-> | ->]; [|right; reflexivity].
    unfold main.is_live in Hl. simpl in Hl. rewrite orb_false_r in Hl.
    apply Nat.eqb_eq in Hl. subst u. right. apply cancel_self.
  - destruct ph as [|u| |e]; try discriminate.
    assert (Hc : main.cancel u tasks = []).
    { destruct Hinv as [-> | ->]; [apply cancel_self|reflexivity]. }
    rewrite Hc in Hstep.
    destruct out as [[]|e]; [|destruct (main.is_disconnect e)];
      injection Hstep as <-; reflexivity.
  - destruct ph; try discriminate. injection Hstep as <-. exact Hinv.
Qed.

Lemma run_single_timer (evs : list main.event) : forall s s',
  single_timer s -> main.run evs s = Some s' -> single_timer s'.
Proof.
  induction evs as [|ev evs IH]; intros s s' Hinv Hrun; simpl in Hrun.
  - now injection Hrun as <-.
  - destruct (main.step s ev) as [s1|] eqn:Hstep; [|discriminate].
    eapply IH; [|exact Hrun]. eapply step_single_timer; eassumption.
Qed.

(** When [connect_and_listen] exits, whatever the outcome, its timer task
    is cancelled: the loop is quiet. *)
Lemma step_exit_quiet (s s' : main.supervisor) (out : result unit) :
  single_timer s -> main.step s (main.Exit out) = Some s' -> quiet s'.
Proof.
  unfold single_timer, quiet, main.step.
  destruct s as [ph tasks n b]. cbn [main.at_phase main.live main.spawned main.backoff].
  intros Hinv Hstep.
  destruct ph as [|u| |e]; try discriminate.
  assert (Hc : main.cancel u tasks = []).
  { destruct Hinv as [-> | ->]; [apply cancel_self|reflexivity]. }
  rewrite Hc in Hstep.
  destruct out as [[]|e]; [|destruct (main.is_disconnect e)];
    injection Hstep as <-; (split; [reflexivity|intros t; discriminate]).
Qed.

(** A quiet loop stays quiet until the next [Connect]; in particular no
    timer fires. *)
Lemma step_quiet (s s' : main.supervisor) (ev : main.event) :
  quiet s -> ev <> main.Connect -> main.step s ev = Some s' ->
  quiet s' /\ forall t, ev <> main.Fire t.
Proof.
  unfold quiet, main.step.
  destruct s as [ph tasks n b]. cbn [main.at_phase main.live main.spawned main.backoff].
  intros [-> Hph] Hev Hstep.
  destruct ev as [| |t|t|out|]; try contradiction.
  - destruct ph as [|u| |e]; try discriminate. exfalso. exact (Hph u eq_refl).
  - simpl in Hstep. destruct ph; discriminate.
  - simpl in Hstep. destruct ph; discriminate.
  - destruct ph as [|u| |e]; try discriminate. exfalso. exact (Hph u eq_refl).
  - destruct ph; try discriminate. injection Hstep as <-.
    split; [split; [reflexivity|intros t; discriminate]|intros t; discriminate].
Qed.

Lemma run_quiet (evs : list main.event) : forall s s',
  quiet s -> ~ In main.Connect evs -> main.run evs s = Some s' ->
  quiet s' /\ forall t, ~ In (main.Fire t) evs.
Proof.
  induction evs as [|ev evs IH]; intros s s' Hq Hnc Hrun; simpl in Hrun.
  - injection Hrun as <-. split; [exact Hq|intros t []].
  - destruct (main.step s ev) as [s1|] eqn:Hstep; [|discriminate].
    assert (Hev : ev <> main.Connect) by (intros ->; apply Hnc; left; reflexivity).
    destruct (step_quiet s s1 ev Hq Hev Hstep) as [Hq1 Hnf].
    destruct (IH s1 s' Hq1 (fun H => Hnc (or_intror H)) Hrun) as [Hq' Hnf'].
    split; [exact Hq'|].
    intros t [->|Hin]; [exact (Hnf t eq_refl)|exact (Hnf' t Hin)].
Qed.

Lemma start_single_timer : single_timer main.start.
Proof. reflexivity. Qed.

Lemma quiet_no_fire (s : main.supervisor) (t : nat) :
  quiet s -> main.step s (main.Fire t) = None.
Proof.
  intros [Hlive _]. unfold main.step. rewrite Hlive. simpl.
  destruct (main.at_phase s); reflexivity.
Qed.

(** A timer that fires after a quiet point was spawned by a [Connect] in
    between. *)
Lemma run_quiet_then_fire (evs : list main.event) : forall s s' t,
  quiet s -> main.run (evs ++ [main.Fire t]) s = Some s' -> In main.Connect evs.
Proof.
  induction evs as [|ev evs IH]; intros s s' t Hq Hrun.
  - cbn [app main.run] in Hrun. rewrite (quiet_no_fire s t Hq) in Hrun. discriminate.
  - cbn [app main.run] in Hrun.
    destruct (main.step s ev) as [s1|] eqn:Hstep; [|discriminate].
    destruct ev as [| |u|u|out|]; [left; reflexivity| | | | |];
      right;
      (assert (Hq1 : quiet s1)
         by (eapply step_quiet; [exact Hq| |exact Hstep]; discriminate));
      exact (IH s1 s' t Hq1 Hrun).
Qed.

(** C5.  At every point the reconnect loop can reach: at most one timer
    task is live, and a live timer is the one of the current connection
    epoch; when [connect_and_listen] exits, with a clean close or with any
    exception, its timer is cancelled, so that no timer is live and none
    can fire; and a timer firing after such an exit is preceded by a new
    [Connect], which spawned a new timer task. *)
Theorem C5_at_most_one_live_timer (evs : list main.event) (s : main.supervisor) :
  main.run evs main.start = Some s ->
  (length (main.live s) <= 1)%nat /\
  (forall t, In t (main.live s) -> main.at_phase s = main.Listening t) /\
  (forall out s',
     main.step s (main.Exit out) = Some s' ->
     main.live s' = [] /\ forall t, main.step s' (main.Fire t) = None) /\
  (forall evs1 out evs2 t,
     evs = (evs1 ++ main.Exit out :: evs2 ++ [main.Fire t])%list ->
     In main.Connect evs2).
Proof.
  intros Hrun.
  pose proof (run_single_timer evs _ _ start_single_timer Hrun) as Hinv.
  split; [|split; [|split]].
  - unfold single_timer in Hinv.
    destruct (main.at_phase s); try (rewrite Hinv; simpl; lia).
    destruct Hinv as [-> | ->]; simpl; lia.
  - intros t Hin. unfold single_timer in Hinv.
    destruct (main.at_phase s); try (rewrite Hinv in Hin; contradiction).
    destruct Hinv as [Hl | Hl]; rewrite Hl in Hin; [|contradiction].
    destruct Hin as [<-|[]]. reflexivity.
  - intros out s' Hstep.
    pose proof (step_exit_quiet s s' out Hinv Hstep) as Hq.
    split; [apply Hq|]. intros t. now apply quiet_no_fire.
  - intros evs1 out evs2 t ->.
    rewrite run_app in Hrun.
    destruct (main.run evs1 main.start) as [s1|] eqn:Hrun1; [|discriminate].
    cbn [main.run] in Hrun.
    destruct (main.step s1 (main.Exit out)) as [s2|] eqn:Hexit; [|discriminate].
    pose proof (run_single_timer evs1 _ _ start_single_timer Hrun1) as Hinv1.
    pose proof (step_exit_quiet s1 s2 out Hinv1 Hexit) as Hq.
    exact (run_quiet_then_fire evs2 s2 s t Hq Hrun).
Qed.

(** A disconnect in the first epoch, the backoff, a second epoch: the
    timer that fires at the end is timer 1, the only live one. *)
Lemma C5_at_most_one_live_timer_witness :
  main.run [main.Connect; main.Fire 0; main.Exit (Raise ConnectionClosed);
            main.BackoffElapsed; main.Connect; main.Fire 1] main.start
  = Some (main.mkSupervisor (main.Listening 1) [1%nat] 2 2) /\
  (length [1%nat] <= 1)%nat /\
  In main.Connect [main.BackoffElapsed; main.Connect].
Proof.
  assert (H : main.run [main.Connect; main.Fire 0; main.Exit (Raise ConnectionClosed);
                        main.BackoffElapsed; main.Connect; main.Fire 1] main.start
              = Some (main.mkSupervisor (main.Listening 1) [1%nat] 2 2)) by reflexivity.
  destruct (C5_at_most_one_live_timer _ _ H) as (Hlen & _ & _ & Hfire).
  split; [exact H|]. split; [exact Hlen|].
  exact (Hfire [main.Connect; main.Fire 0] (Raise ConnectionClosed)
           [main.BackoffElapsed; main.Connect] 1%nat eq_refl).
Defined.

(* ===================================================================== *)
(** * Further properties of the window and of the feature engine *)
(* ===================================================================== *)

Lemma evictions_app {A : Type} (o1 o2 : list (option A)) :
  evictions (o1 ++ o2) = evictions o1 ++ evictions o2.
Proof. unfold evictions. apply flat_map_app. Qed.

Lemma evictions_evicted {A : Type} (N : nat) (xs : list A) :
  (1 <= N)%nat -> evictions (evicted N xs) ++ held N xs = xs.
Proof.
  intros HN. induction xs as [|x xs IH] using rev_ind; [reflexivity|].
  rewrite evicted_snoc by exact HN. rewrite evictions_app.
  destruct (Nat.ltb_spec (length xs) N) as [Hlt|Hge].
  - rewrite (held_short N xs) in IH by lia.
    rewrite (held_short N (xs ++ [x])) by (rewrite length_app; simpl; lia).
    simpl. rewrite app_nil_r.
    rewrite app_assoc, IH. reflexivity.
  - destruct (held_full N xs) as (old & rest & Hn & Hh & _ & Hs); [lia|].
    rewrite Hs, Hn. rewrite Hh in IH.
    set (E := evictions (evicted N xs)) in *.
    change (evictions [Some old]) with [old].
    replace ((E ++ [old]) ++ rest ++ [x]) with ((E ++ old :: rest) ++ [x])
      by (rewrite <- !app_assoc; reflexivity).
    now rewrite IH.
Qed.

(** X1.  Nothing is lost, duplicated or reordered: after any sequence of
    pushes on a fresh window of capacity [N >= 1], the evicted elements, in
    the order they were returned, followed by the elements still held, are
    the input sequence. *)
Theorem Window_conserves_arrivals {A : Type} (N : nat) (xs : list A) :
  (1 <= N)%nat ->
  exists outs w,
    Window.feed xs (Window.init N) = (Ok outs, w) /\
    (evictions outs ++ Window.data w)%list = xs.
Proof.
  intros HN. exists (evicted N xs), (Window.mk (held N xs) N).
  split; [now apply Window_feed_init|]. now apply evictions_evicted.
Qed.

Lemma Window_conserves_arrivals_witness :
  (1 <= 2)%nat /\
  exists outs w,
    Window.feed [1; 2; 3; 4; 5]%nat (Window.init 2) = (Ok outs, w) /\
    (evictions outs ++ Window.data w)%list = [1; 2; 3; 4; 5]%nat.
Proof.
  assert (H : (1 <= 2)%nat) by lia.
  split; [exact H|]. exact (Window_conserves_arrivals 2 [1; 2; 3; 4; 5]%nat H).
Defined.

(** X2.  A window of capacity 0 is full while empty: every push finds
    nothing to pop and raises IndexError, the element is not stored, and
    feeding any non-empty sequence stops at its first element. *)
Theorem Window_of_capacity_zero_raises {A : Type} (x : A) (xs : list A) :
  Window.on_tick x (Window.init 0) = (Raise IndexError, Window.init 0) /\
  Window.feed (x :: xs) (Window.init 0) = (Raise IndexError, Window.init 0) /\
  Window.is_full (@Window.init A 0) = true.
Proof.
  assert (H : Window.on_tick x (Window.init 0) = (Raise IndexError, Window.init 0))
    by reflexivity.
  split; [exact H|]. split; [|reflexivity].
  cbn [Window.feed]. unfold bind. rewrite H. reflexivity.
Qed.


(** Feeding positive prices to a fresh engine. *)
Lemma LogReturn_feed_positive (prices : list R) :
  Forall (fun p => (0 < p)%R) prices ->
  LogReturn.feed prices LogReturn.init
  = (Ok (log_returns prices), LogReturn.mk (Window.mk (held 2 prices) 2)).
Proof.
  intros Hall. destruct prices as [|first rest]; [reflexivity|].
  inversion Hall as [|? ? Hp Hrest]; subst.
  cbn [LogReturn.feed log_returns]. unfold bind.
  rewrite LogReturn_on_tick_first.
  assert (Hd0 : (length (@nil R) <= 1)%nat) by (simpl; lia).
  pose proof (LogReturn_feed_from rest [] first Hd0 Hp Hrest) as Hfeed.
  cbn [app] in Hfeed. rewrite Hfeed. reflexivity.
Qed.

(* ===================================================================== *)
(** * Further properties of the model and of the strategy *)
(* ===================================================================== *)

(** X5.  A feature of [-inf] (the newest price was 0) is not refused by the
    model: [predict] returns a forecast, and the order built from it is a
    buy exactly when the weight is negative, whatever the bias; with a
    weight of 0 the forecast is [nan] and the order is a sell. *)
Theorem NegInf_feature_buys_iff_negative_weight
    (m : LinReg.LinReg) (s : BasicTakerStrat.BasicTakerStrat) :
  exists y_hat,
    LinReg.predict m (Some np.NegInf) = Ok y_hat /\
    (Order.is_buy (BasicTakerStrat.strategy s y_hat) = true <-> (LinReg.weights m < 0)%R) /\
    (LinReg.weights m = 0%R -> y_hat = np.NaN).
Proof.
  unfold LinReg.predict, LinReg.dot, BasicTakerStrat.strategy. cbn [np.mul Order.is_buy].
  destruct (Rlt_dec 0 (LinReg.weights m)) as [Hpos|Hnpos].
  - rewrite (Rsign_pos _ Hpos). eexists. split; [reflexivity|].
    cbn [np.add np.sign np.eqb]. split; [|intros; lra].
    destruct (Req_dec_T (-1) 1) as [E|_]; [lra|]. split; [discriminate|lra].
  - destruct (Rlt_dec (LinReg.weights m) 0) as [Hneg|Hnneg].
    + rewrite (Rsign_neg _ Hneg). eexists. split; [reflexivity|].
      cbn [np.add np.sign np.eqb]. split; [|intros; lra].
      destruct (Req_dec_T 1 1) as [_|E]; [tauto|contradiction].
    + assert (Hz : LinReg.weights m = 0%R) by lra.
      rewrite Hz, Rsign_zero. eexists. split; [reflexivity|].
      cbn [np.add np.sign np.eqb]. split; [|reflexivity].
      split; [discriminate|lra].
Qed.

(** A tick on an engine whose latest price is not 0. *)
Lemma on_tick_warm_engine (price oldest : R) (d : list R) (p : BasicTakerStrat.process) :
  let s := BasicTakerStrat.self p in
  let ex := BasicTakerStrat.exchange s in
  BasicTakerStrat.lag s = LogReturn.mk (Window.mk (d ++ [oldest]) 2) ->
  (length d <= 1)%nat ->
  oldest <> 0%R ->
  (forall h c e, Exchange.respond ex h c = Raise e -> is_Exception e = true) ->
  exists p' is_buy,
    BasicTakerStrat.on_tick price p = (Ok tt, p') /\
    Exchange.history (BasicTakerStrat.exchange (BasicTakerStrat.self p'))
    = (Exchange.history ex
       ++ [Exchange.market_close (BasicTakerStrat.coin s);
           Exchange.market_open (BasicTakerStrat.coin s) is_buy (BasicTakerStrat.sz s)])%list /\
    BasicTakerStrat.lag (BasicTakerStrat.self p')
    = LogReturn.mk (Window.mk [oldest; price] 2).
Proof.
  intros s ex Hlag Hd Hold Hexn.
  pose proof (LogReturn_on_tick_next d oldest price Hd) as Hnext.
  unfold LogReturn.truediv in Hnext.
  destruct (Req_dec_T oldest 0) as [E|_]; [contradiction|].
  rewrite <- Hlag in Hnext.
  set (feature := np.log (price / oldest)) in Hnext.
  set (y_hat := np.add (np.mul feature (np.Finite (LinReg.weights (BasicTakerStrat.model s))))
                  (np.Finite (LinReg.bias (BasicTakerStrat.model s)))).
  assert (Hpred : LinReg.predict (BasicTakerStrat.model s) (Some feature) = Ok y_hat)
    by reflexivity.
  rewrite (on_tick_with_feature price p _ _ _ Hnext Hpred).
  fold s. fold ex.
  rewrite execute_both_calls; fields;
    [|intros e He; exact (Hexn _ _ _ He)|intros e He; exact (Hexn _ _ _ He)].
  eexists. exists (np.eqb (np.sign y_hat) (np.Finite 1)).
  split; [reflexivity|]. fields.
  split; [rewrite <- app_assoc; reflexivity|reflexivity].
Qed.

(** X6.  A tick on a warm engine trades exactly once.  When the latest
    price the engine holds is not 0 and the exchange raises nothing but
    instances of [Exception], [on_tick] returns normally, whatever the new
    price and the model: the exchange receives exactly one [market_close]
    followed by one [market_open] for the strategy's coin and size, and the
    engine is left holding the two latest prices. *)
Theorem on_tick_trades_once (price oldest : R) (d : list R) (p : BasicTakerStrat.process) :
  let s := BasicTakerStrat.self p in
  let ex := BasicTakerStrat.exchange s in
  BasicTakerStrat.lag s = LogReturn.mk (Window.mk (d ++ [oldest]) 2) ->
  (length d <= 1)%nat ->
  oldest <> 0%R ->
  (forall h c e, Exchange.respond ex h c = Raise e -> is_Exception e = true) ->
  exists p' is_buy,
    BasicTakerStrat.on_tick price p = (Ok tt, p') /\
    Exchange.history (BasicTakerStrat.exchange (BasicTakerStrat.self p'))
    = (Exchange.history ex
       ++ [Exchange.market_close (BasicTakerStrat.coin s);
           Exchange.market_open (BasicTakerStrat.coin s) is_buy (BasicTakerStrat.sz s)])%list /\
    BasicTakerStrat.lag (BasicTakerStrat.self p')
    = LogReturn.mk (Window.mk [oldest; price] 2).
Proof.
  intros s ex Hlag Hd Hold Hexn.
  destruct (on_tick_warm_engine price oldest d p Hlag Hd Hold Hexn)
    as (p' & is_buy & Htick & Hhist & Hwindow).
  exists p', is_buy. split; [exact Htick|]. split; [exact Hhist|exact Hwindow].
Qed.

(** Prices 100 then 110 on an exchange that fills: one close, then one
    open. *)
Lemma on_tick_trades_once_witness :
  exists p' is_buy,
    BasicTakerStrat.on_tick 110
      (BasicTakerStrat.mkProcess
         (sample_strat filling_exchange 2 0 (LogReturn.mk (Window.mk [100%R] 2))) [])
    = (Ok tt, p') /\
    Exchange.history (BasicTakerStrat.exchange (BasicTakerStrat.self p'))
    = [Exchange.market_close "BTC"; Exchange.market_open "BTC" is_buy (2 / 10000)].
Proof.
  assert (Hd : (length (@nil R) <= 1)%nat) by (simpl; lia).
  assert (Ho : (100 <> 0)%R) by lra.
  assert (Hexn : forall h c e,
             Exchange.respond filling_exchange h c = Raise e -> is_Exception e = true)
    by (intros h c e; discriminate).
  destruct (on_tick_trades_once 110 100 []
              (BasicTakerStrat.mkProcess
                 (sample_strat filling_exchange 2 0 (LogReturn.mk (Window.mk [100%R] 2))) [])
              eq_refl Hd Ho Hexn) as (p' & is_buy & Htick & Hhist & _).
  exists p', is_buy. split; [exact Htick|exact Hhist].
Defined.

(** X7.  An exception of the close that [except Exception] does not catch
    (a [KeyboardInterrupt], a cancellation) leaves [execute] at once: it
    propagates, [market_open] is not attempted and nothing is printed. *)
Theorem execute_stops_on_BaseException
    (order : Order.Order) (p : BasicTakerStrat.process) (e : exn) :
  let s := BasicTakerStrat.self p in
  let ex := BasicTakerStrat.exchange s in
  let close := Exchange.market_close (BasicTakerStrat.coin s) in
  Exchange.respond ex (Exchange.history ex) close = Raise e ->
  is_Exception e = false ->
  exists p',
    BasicTakerStrat.execute order p = (Raise e, p') /\
    Exchange.history (BasicTakerStrat.exchange (BasicTakerStrat.self p'))
    = (Exchange.history ex ++ [close])%list /\
    BasicTakerStrat.stdout p' = BasicTakerStrat.stdout p.
Proof.
  destruct p as [[[respond history] coin model lag sz leverage] out].
  cbn zeta; fields. intros Hclose He.
  unfold BasicTakerStrat.execute, try_except_Exception, bind, get,
    BasicTakerStrat.with_exchange, zoom, Exchange.invoke, BasicTakerStrat.print.
  fields. rewrite Hclose, He.
  eexists. split; [reflexivity|]. fields. split; reflexivity.
Qed.

Lemma execute_stops_on_BaseException_witness :
  exists p',
    BasicTakerStrat.execute (Order.mk "BTC" (2 / 10000) true)
      (BasicTakerStrat.mkProcess
         (sample_strat (Exchange.mk (fun _ _ => Raise KeyboardInterrupt) []) 1 0
            LogReturn.init) [])
    = (Raise KeyboardInterrupt, p') /\
    Exchange.history (BasicTakerStrat.exchange (BasicTakerStrat.self p'))
    = [Exchange.market_close "BTC"].
Proof.
  destruct (execute_stops_on_BaseException (Order.mk "BTC" (2 / 10000) true)
              (BasicTakerStrat.mkProcess
                 (sample_strat (Exchange.mk (fun _ _ => Raise KeyboardInterrupt) []) 1 0
                    LogReturn.init) [])
              KeyboardInterrupt eq_refl eq_refl) as (p' & Hexec & Hhist & _).
  exists p'. split; [exact Hexec|exact Hhist].
Defined.



(* ===================================================================== *)
(** * Further properties of start-up *)
(* ===================================================================== *)


(** X9.  Warm-up.  With a configured weight [w] and positive historical
    closes, [create_strategy] succeeds: the model has weights [w] and bias
    [w], the coin is the configured symbol, the trade size is 0.0002, the
    leverage 1, and the engine holds the last two closes (all of them when
    there are fewer), so that the last close is the reference of the first
    live tick. *)
Theorem create_strategy_warms_up
    (params : main.Params) (exchange : Exchange.Exchange) (prices : list R) (w : R) :
  main.model params !! "weight" = Some w ->
  Forall (fun p => (0 < p)%R) prices ->
  main.create_strategy params exchange prices
  = Ok (BasicTakerStrat.mk exchange (main.sym params) (LinReg.mk w w)
          (LogReturn.mk (Window.mk (held 2 prices) 2)) (2 / 10000) 1).
Proof.
  intros Hw Hall.
  unfold main.create_strategy, main.create_model, main.getitem, rbind.
  rewrite Hw, (LogReturn_feed_positive prices Hall). reflexivity.
Qed.

Lemma create_strategy_warms_up_witness :
  main.create_strategy (main.mkParams {["weight" := 3%R]} "BTC" "1h") filling_exchange
    [100; 101; 102; 103; 104]%R
  = Ok (BasicTakerStrat.mk filling_exchange "BTC" (LinReg.mk 3 3)
          (LogReturn.mk (Window.mk [103; 104]%R 2)) (2 / 10000) 1).
Proof.
  assert (Hw : main.model (main.mkParams {["weight" := 3%R]} "BTC" "1h") !! "weight"
               = Some 3%R) by reflexivity.
  assert (H : Forall (fun p => (0 < p)%R) [100; 101; 102; 103; 104]%R)
    by (repeat constructor; lra).
  exact (create_strategy_warms_up _ filling_exchange _ 3 Hw H).
Defined.





Lemma str_append_cons (a : ascii) (s t : string) :
  String.append (String a s) t = String a (String.append s t).
Proof. reflexivity. Qed.

Lemma str_last_snoc (prefix : string) (c : ascii) :
  str_last (String.append prefix (String c EmptyString)) = Ok (String c EmptyString).
Proof.
  induction prefix as [|a prefix IH]; [reflexivity|].
  rewrite str_append_cons.
  destruct (String.append prefix (String c EmptyString)) as [|b rest] eqn:E.
  - destruct prefix; discriminate.
  - exact IH.
Qed.

Lemma str_init_snoc (prefix : string) (c : ascii) :
  str_init (String.append prefix (String c EmptyString)) = prefix.
Proof.
  induction prefix as [|a prefix IH]; [reflexivity|].
  rewrite str_append_cons.
  destruct (String.append prefix (String c EmptyString)) as [|b rest] eqn:E.
  - destruct prefix; discriminate.
  - change (String a (str_init (String b rest)) = String a prefix). now rewrite IH.
Qed.

Lemma str_append_assoc (a b c : string) :
  String.append (String.append a b) c = String.append a (String.append b c).
Proof.
  induction a as [|x a IH]; [reflexivity|]. rewrite !str_append_cons. now rewrite IH.
Qed.

Lemma str_repeat_add (s : string) (a b : nat) :
  str_repeat s (a + b) = String.append (str_repeat s a) (str_repeat s b).
Proof.
  induction a as [|a IH]; [reflexivity|].
  cbn [Nat.add str_repeat]. now rewrite IH, str_append_assoc.
Qed.

Lemma str_repeat_mul (s : string) (a b : nat) :
  str_repeat (str_repeat s a) b = str_repeat s (b * a).
Proof.
  induction b as [|b IH]; [reflexivity|].
  cbn [str_repeat Nat.mul]. now rewrite IH, str_repeat_add.
Qed.

(** X11.  What [interval_mins] does on every string.  The empty string
    raises IndexError.  A string ending in 'h', 'm' or 'd' returns its
    prefix repeated 60 times, once, or 1440 times (the empty string for a
    bare unit letter).  Any other last character raises ValueError with the
    whole string in the message. *)
Theorem interval_mins_by_last_character (prefix : string) (c : ascii) :
  main.interval_mins "" = Raise IndexError /\
  main.interval_mins (String.append prefix "h") = Ok (PyStr (str_repeat prefix 60)) /\
  main.interval_mins (String.append prefix "m") = Ok (PyStr prefix) /\
  main.interval_mins (String.append prefix "d") = Ok (PyStr (str_repeat prefix 1440)) /\
  (c <> "h"%char -> c <> "m"%char -> c <> "d"%char ->
   main.interval_mins (String.append prefix (String c EmptyString))
   = Raise (ValueError
              (String.append "Invalid Interval: "
                 (String.append prefix (String c EmptyString))))).
Proof.
  split; [reflexivity|].
  unfold main.interval_mins, rbind.
  repeat split.
  - rewrite str_last_snoc, str_init_snoc. reflexivity.
  - rewrite str_last_snoc, str_init_snoc. reflexivity.
  - rewrite str_last_snoc, str_init_snoc. cbn [String.eqb Ascii.eqb Bool.eqb py_mul].
    rewrite str_repeat_mul. reflexivity.
  - intros Hh Hm Hd. rewrite str_last_snoc.
    assert (Hne : forall k : ascii, c <> k ->
              String.eqb (String c EmptyString) (String k EmptyString) = false).
    { intros k Hk. apply String.eqb_neq. intros [= E]. contradiction. }
    rewrite (Hne "h"%char Hh), (Hne "m"%char Hm), (Hne "d"%char Hd). reflexivity.
Qed.

(** X12.  Of the intervals [main] accepts ([hl.TIME_INTERVALS]), '1w' and
    '1M' are the two that [interval_mins] rejects with ValueError: their
    unit letter is none of 'm', 'h', 'd'. *)
Theorem interval_mins_rejects_week_and_month (interval : string) :
  In interval hl.TIME_INTERVALS ->
  (exists msg, main.interval_mins interval = Raise (ValueError msg))
  <-> (interval = "1w" \/ interval = "1M").
Proof.
  unfold hl.TIME_INTERVALS. cbn [In]. intros H.
  repeat (destruct H as [<-|H]); try contradiction;
    (split;
     [intros [msg Hm]; vm_compute in Hm; first [discriminate|tauto]
     |intros [E|E]; first [discriminate E|eexists; vm_compute; reflexivity]]).
Qed.

Lemma interval_mins_rejects_week_and_month_witness :
  In "1w" hl.TIME_INTERVALS /\
  exists msg, main.interval_mins "1w" = Raise (ValueError msg).
Proof.
  assert (H : In "1w" hl.TIME_INTERVALS) by (vm_compute; tauto).
  split; [exact H|].
  apply (interval_mins_rejects_week_and_month "1w" H). left. reflexivity.
Defined.

(** X13.  [dl_last_candles] finds a [timedelta] for exactly the members of
    [TIME_INTERVALS] other than '1M'; for every other string, '1M'
    included, its dictionary lookup raises KeyError.  [main] downloads the
    candles before it checks the interval, so whenever that check is
    reached the interval is in [TIME_INTERVALS]. *)
Theorem dl_last_candles_known_intervals (interval : string) (no_lags now : Z) :
  ((exists range, hl.dl_last_candles interval no_lags now = Ok range)
   <-> (In interval hl.TIME_INTERVALS /\ interval <> "1M")) /\
  ((forall range, hl.dl_last_candles interval no_lags now <> Ok range)
   -> hl.dl_last_candles interval no_lags now = Raise (KeyError interval)).
Proof.
  unfold hl.dl_last_candles. split; [split|].
  - intros [range Hr].
    destruct (hl._interval_map !! interval) as [delta|] eqn:E; [|discriminate].
    unfold hl._interval_map in E. apply elem_of_list_to_map_2 in E.
    repeat (apply elem_of_cons in E; destruct E as [[= -> ->]|E];
            [split; [vm_compute; tauto|discriminate]|]).
    apply elem_of_nil in E. contradiction.
  - intros [Hin Hne]. unfold hl.TIME_INTERVALS in Hin. cbn [In] in Hin.
    repeat (destruct Hin as [<-|Hin]; [try (eexists; reflexivity)|]);
      contradiction.
  - intros Hnone.
    destruct (hl._interval_map !! interval) as [delta|]; [|reflexivity].
    exfalso. exact (Hnone _ eq_refl).
Qed.

(* ===================================================================== *)
(** * Further properties of the reconnect loop *)
(* ===================================================================== *)

Lemma step_backoff_bounds (s s' : main.supervisor) (ev : main.event) :
  (1 <= main.backoff s <= 30)%Z -> main.step s ev = Some s' ->
  (1 <= main.backoff s' <= 30)%Z.
Proof.
  unfold main.step. destruct s as [ph tasks n b].
  cbn [main.at_phase main.live main.spawned main.backoff]. intros Hb Hstep.
  destruct ev as [| |t|t|out|]; destruct ph; try discriminate;
    try (destruct (main.is_live t tasks); [|discriminate]);
    try (destruct out as [[]|e]; [|destruct (main.is_disconnect e)]);
    injection Hstep as <-; cbn [main.backoff]; lia.
Qed.

(** X16.  The wait between two connection attempts is never shorter than
    1 second and never longer than 30, at any point the loop can reach. *)
Theorem backoff_stays_between_1_and_30 (evs : list main.event) : forall s,
  main.run evs main.start = Some s -> (1 <= main.backoff s <= 30)%Z.
Proof.
  assert (Hgen : forall s0 s, (1 <= main.backoff s0 <= 30)%Z ->
                              main.run evs s0 = Some s -> (1 <= main.backoff s <= 30)%Z).
  { induction evs as [|ev evs IH]; intros s0 s Hb Hrun; cbn [main.run] in Hrun.
    - now injection Hrun as <-.
    - destruct (main.step s0 ev) as [s1|] eqn:Hstep; [|discriminate].
      exact (IH s1 s (step_backoff_bounds s0 s1 ev Hb Hstep) Hrun). }
  intros s. apply Hgen. cbn. lia.
Qed.

Lemma backoff_stays_between_1_and_30_witness :
  (1 <= main.backoff (main.mkSupervisor main.Backoff [] 1 1) <= 30)%Z.
Proof.
  exact (backoff_stays_between_1_and_30
           [main.Connect; main.Exit (Raise OSError)] _ eq_refl).
Defined.

Lemma run_disconnects (k : nat) : forall (n : nat) (b : Z),
  (1 <= b <= 30)%Z ->
  main.run (disconnects k) (main.mkSupervisor main.Idle [] n b)
  = Some (main.mkSupervisor main.Idle [] (k + n) (Z.min (b * 2 ^ Z.of_nat k) 30)).
Proof.
  induction k as [|k IH]; intros n b Hb.
  - cbn [disconnects main.run Nat.add Z.of_nat]. do 2 f_equal.
    rewrite Z.pow_0_r. lia.
  - cbn [disconnects main.run main.step main.at_phase main.live main.spawned
         main.backoff main.is_disconnect].
    rewrite cancel_self.
    rewrite IH by lia.
    do 2 f_equal; [lia|].
    rewrite Nat2Z.inj_succ, Z.pow_succ_r by lia.
    assert (Hpow : (0 < 2 ^ Z.of_nat k)%Z) by (apply Z.pow_pos_nonneg; lia).
    nia.
Qed.

(** X17.  After [k] connections lost in a row the loop is idle again, no
    timer is live, and the next wait is [min(2^k, 30)] seconds: 1, 2, 4, 8,
    16, 30, 30, ...; a connection that then ends with a clean close puts
    the wait back to 1 second. *)
Theorem backoff_doubles_up_to_30 (k : nat) :
  main.run (disconnects k) main.start
  = Some (main.mkSupervisor main.Idle [] k (Z.min (2 ^ Z.of_nat k) 30)) /\
  main.run (disconnects k ++ [main.Connect; main.Exit (Ok tt)]) main.start
  = Some (main.mkSupervisor main.Idle [] (S k) 1).
Proof.
  assert (Hrun : main.run (disconnects k) main.start
                 = Some (main.mkSupervisor main.Idle [] k (Z.min (2 ^ Z.of_nat k) 30))).
  { unfold main.start. rewrite run_disconnects by lia.
    rewrite Nat.add_0_r, Z.mul_1_l. reflexivity. }
  split; [exact Hrun|].
  rewrite run_app, Hrun.
  cbn [main.run main.step main.at_phase main.live main.spawned main.backoff].
  rewrite cancel_self. reflexivity.
Qed.

(** X18.  Only a lost connection is retried.  When [connect_and_listen]
    ends with an exception that is neither ConnectionClosed nor OSError,
    the timer is cancelled and the loop is over: no reconnection, no
    firing, no further step at all. *)
Theorem other_exceptions_end_the_loop
    (evs : list main.event) (s s' : main.supervisor) (e : exn)
    (ev : main.event) (rest : list main.event) :
  main.run evs main.start = Some s ->
  main.step s (main.Exit (Raise e)) = Some s' ->
  main.is_disconnect e = false ->
  main.at_phase s' = main.Crashed e /\
  main.live s' = [] /\
  main.run (ev :: rest) s' = None.
Proof.
  intros Hrun Hstep He.
  pose proof (run_single_timer evs _ _ start_single_timer Hrun) as Hinv.
  destruct (step_exit_quiet s s' (Raise e) Hinv Hstep) as [Hlive _].
  assert (Hph : main.at_phase s' = main.Crashed e).
  { unfold main.step in Hstep. destruct (main.at_phase s); try discriminate.
    rewrite He in Hstep. now injection Hstep as <-. }
  split; [exact Hph|]. split; [exact Hlive|].
  cbn [main.run]. unfold main.step. rewrite Hph, Hlive.
  destruct ev; reflexivity.
Qed.

Lemma other_exceptions_end_the_loop_witness :
  main.at_phase (main.mkSupervisor (main.Crashed IndexError) [] 1 1)
  = main.Crashed IndexError /\
  main.live (main.mkSupervisor (main.Crashed IndexError) [] 1 1) = [] /\
  main.run [main.Connect] (main.mkSupervisor (main.Crashed IndexError) [] 1 1) = None.
Proof.
  exact (other_exceptions_end_the_loop [main.Connect; main.Message] _ _ IndexError
           main.Connect [] eq_refl eq_refl eq_refl).
Defined.

(* ===================================================================== *)
(** * Further properties of the timer callback and of the messages *)
(* ===================================================================== *)

(** X19.  The first firing of the timer on a strategy whose engine is
    fresh never trades, whatever the last price: with no price received
    yet it raises NameError, with a last price of 0 it only prints, and
    with any other price it raises TypeError out of the model.  In every
    case the exchange has received no call. *)
Theorem timer_fire_cold_never_trades
    (last_price : option R) (ex : Exchange.Exchange) (coin : string)
    (model : LinReg.LinReg) (sz leverage : R) (out : list BasicTakerStrat.line) :
  exists r p',
    main.timer_fire last_price
      (BasicTakerStrat.mkProcess
         (BasicTakerStrat.mk ex coin model LogReturn.init sz leverage) out)
    = (r, p') /\
    BasicTakerStrat.exchange (BasicTakerStrat.self p') = ex /\
    (last_price = None -> r = Raise (NameError "last_price")) /\
    (last_price = Some 0%R -> r = Ok tt) /\
    (forall price, last_price = Some price -> price <> 0%R -> r = Raise TypeError).
Proof.
  unfold main.timer_fire.
  destruct last_price as [price|].
  - destruct (Req_dec_T price 0) as [E|Hne].
    + eexists. eexists. split; [reflexivity|]. fields.
      split; [reflexivity|]. split; [discriminate|].
      split; [reflexivity|]. intros x [= <-] Hx. contradiction.
    + unfold BasicTakerStrat.on_tick, bind, BasicTakerStrat.print,
        BasicTakerStrat.with_lag, zoom, get, lift_result.
      fields. rewrite LogReturn_on_tick_first. fields.
      eexists. eexists. split; [reflexivity|]. fields.
      split; [reflexivity|]. split; [discriminate|].
      split; [intros [= E]; contradiction|reflexivity].
  - eexists. eexists. split; [reflexivity|]. fields.
    split; [reflexivity|]. split; [reflexivity|].
    split; [discriminate|]. intros x; discriminate.
Qed.

Lemma list_last_snoc (earlier : list main.json) (x : main.json) :
  main.list_last (earlier ++ [x]) = Ok x.
Proof.
  unfold main.list_last. destruct earlier as [|y earlier]; [reflexivity|].
  cbn [app]. f_equal. apply last_last.
Qed.

(** X20.  A message that carries no list under 'data' (no such key, or a
    value of another type, as in a subscription acknowledgement) changes
    nothing: the last price stays what it was and nothing is raised. *)
Theorem on_message_without_trades_keeps_price
    (parse_float : string -> option R) (data : gmap string main.json)
    (last_price : option R) :
  (forall trade_data, data !! "data" <> Some (main.JList trade_data)) ->
  main.on_message parse_float data last_price = Ok last_price.
Proof.
  intros Hnot. unfold main.on_message.
  destruct (data !! "data") as [[| | | |trade_data|]|] eqn:E; try reflexivity.
  exfalso. exact (Hnot trade_data eq_refl).
Qed.

Lemma on_message_without_trades_keeps_price_witness :
  main.on_message (fun _ => None)
    {["channel" := main.JStr "subscriptionResponse"; "data" := main.JDict ∅]}
    (Some 100%R)
  = Ok (Some 100%R).
Proof.
  apply on_message_without_trades_keeps_price.
  intros trade_data. vm_compute. discriminate.
Defined.

(** X21.  The last trade of a message sets the price.  When 'data' is a
    non-empty list whose last record has a 'px' that spells a number, that
    number becomes the last price, whatever the earlier records of the
    list contain and whatever the price was before. *)
Theorem on_message_takes_last_trade
    (parse_float : string -> option R) (data : gmap string main.json)
    (last_price : option R) (earlier : list main.json)
    (record : gmap string main.json) (px : string) (price : R) :
  data !! "data" = Some (main.JList (earlier ++ [main.JDict record])) ->
  record !! "px" = Some (main.JStr px) ->
  parse_float px = Some price ->
  main.on_message parse_float data last_price = Ok (Some price).
Proof.
  intros Hdata Hpx Hparse. unfold main.on_message, rbind.
  rewrite Hdata, list_last_snoc. cbn [main.json_getitem].
  rewrite Hpx. cbn [main.py_float]. rewrite Hparse. reflexivity.
Qed.

Lemma on_message_takes_last_trade_witness :
  main.on_message (fun s => if String.eqb s "101.5" then Some 101.5%R else None)
    {["data" := main.JList [main.JNull; main.JDict {["px" := main.JStr "101.5"]}]]}
    (Some 100%R)
  = Ok (Some 101.5%R).
Proof.
  exact (on_message_takes_last_trade
           (fun s => if String.eqb s "101.5" then Some 101.5%R else None)
           {["data" := main.JList [main.JNull; main.JDict {["px" := main.JStr "101.5"]}]]}
           (Some 100%R) [main.JNull] {["px" := main.JStr "101.5"]} "101.5" 101.5%R
           eq_refl eq_refl eq_refl).
Defined.

(** X22.  Malformed trade lists are not tolerated.  An empty list under
    'data' raises IndexError; a last record that is not a dictionary raises
    TypeError; a last record without 'px' raises KeyError; a 'px' that is a
    string spelling no number raises ValueError, and a 'px' that is null, a
    list or a dictionary raises TypeError (a JSON number or boolean is
    accepted by [float]).  None of these errors is a lost connection for
    [main], so each of them ends the loop (X18). *)
Theorem on_message_malformed_trades_raise
    (parse_float : string -> option R) (data : gmap string main.json)
    (last_price : option R) (earlier : list main.json) (last_trade : main.json) :
  (data !! "data" = Some (main.JList []) ->
   main.on_message parse_float data last_price = Raise IndexError) /\
  (data !! "data" = Some (main.JList (earlier ++ [last_trade])) ->
   main.on_message parse_float data last_price
   = match last_trade with
     | main.JDict record =>
         match record !! "px" with
         | None => Raise (KeyError "px")
         | Some (main.JStr px) =>
             match parse_float px with
             | Some price => Ok (Some price)
             | None => Raise (ValueError "could not convert string to float")
             end
         | Some (main.JNum x) => Ok (Some x)
         | Some (main.JBool b) => Ok (Some (if b then 1%R else 0%R))
         | Some _ => Raise TypeError
         end
     | _ => Raise TypeError
     end) /\
  main.is_disconnect IndexError = false /\
  main.is_disconnect (KeyError "px") = false /\
  main.is_disconnect TypeError = false /\
  (forall msg, main.is_disconnect (ValueError msg) = false).
Proof.
  split; [|split; [|repeat split]].
  - intros Hdata. unfold main.on_message. rewrite Hdata. reflexivity.
  - intros Hdata. unfold main.on_message, rbind. rewrite Hdata, list_last_snoc.
    destruct last_trade as [| | | | |record]; try reflexivity.
    cbn [main.json_getitem].
    destruct (record !! "px") as [[| | |px| |]|]; try reflexivity.
    cbn [main.py_float]. destruct (parse_float px); reflexivity.
Qed.
